(** * terraform-provider-mysql: the [mysql_database] resource and the connector

    A shallow embedding of [mysql-provider/provider.go] and
    [mysql-provider/resource_db.go].  Go strings are byte strings
    ([string]), Go [int]s are [Z], a run-time panic is an explicit
    outcome, and everything the provider asks of the outside world (the
    MySQL server behind [database/sql], the SOCKS helpers, the clock) is
    an oracle of an environment record over which the theorems quantify. *)

From Stdlib Require Import ZArith Ascii String.
From stdpp Require Import base option strings list gmap pretty.

Open Scope Z_scope.

(** ** Outcomes of Go code that may panic *)

Inductive panic : Set :=
  | SliceBoundsOutOfRange     (* s[lo:] or s[:hi] outside 0..len(s) *)
  | IndexOutOfRange           (* s[i] outside 0..len(s)-1 *)
  | NilInterfaceConversion    (* x.(T) on a nil interface value *)
  | WrongInterfaceConversion  (* x.(T) on a value of another type *)
  | NilPointerDereference.    (* method call through a nil handle *)

Inductive result (A : Type) : Type :=
  | Val (a : A)
  | Panic (p : panic).
Arguments Val {A} a.
Arguments Panic {A} p.

Global Instance result_ret : MRet result := fun _ a => Val a.
Global Instance result_bind : MBind result := fun _ _ f r =>
  match r with
  | Val a => f a
  | Panic p => Panic p
  end.
Global Instance result_fmap : FMap result := fun _ _ f r =>
  match r with
  | Val a => Val (f a)
  | Panic p => Panic p
  end.

Definition returns {A} (r : result A) : bool :=
  match r with Val _ => true | Panic _ => false end.

(** ** Go string primitives *)

Module GoString.

(** [len(s)] *)
Definition len (s : string) : Z := Z.of_nat (String.length s).

Fixpoint drop (n : nat) (s : string) : string :=
  match n, s with
  | O, _ => s
  | S n', String _ s' => drop n' s'
  | S _, EmptyString => EmptyString
  end.

Fixpoint take (n : nat) (s : string) : string :=
  match n, s with
  | O, _ => EmptyString
  | S n', String c s' => String c (take n' s')
  | S _, EmptyString => EmptyString
  end.

(** [s[lo:]]: the bounds check of the Go runtime is part of the model. *)
Definition slice_from (s : string) (lo : Z) : result string :=
  if (0 <=? lo) && (lo <=? len s) then Val (drop (Z.to_nat lo) s)
  else Panic SliceBoundsOutOfRange.

(** [s[:hi]] *)
Definition slice_to (s : string) (hi : Z) : result string :=
  if (0 <=? hi) && (hi <=? len s) then Val (take (Z.to_nat hi) s)
  else Panic SliceBoundsOutOfRange.

(** [s[i]] *)
Definition index (s : string) (i : Z) : result ascii :=
  if (0 <=? i) && (i <? len s) then
    match drop (Z.to_nat i) s with
    | String c _ => Val c
    | EmptyString => Panic IndexOutOfRange
    end
  else Panic IndexOutOfRange.

(** [strings.HasPrefix(s, prefix)] *)
Fixpoint HasPrefix (s prefix : string) {struct prefix} : bool :=
  match prefix, s with
  | EmptyString, _ => true
  | String _ _, EmptyString => false
  | String p prefix', String c s' => Ascii.eqb c p && HasPrefix s' prefix'
  end.

(** [strings.Index(s, substr)]: the byte offset of the first occurrence
    of [substr] in [s], or -1.  [pos] is the offset of [s] in the string
    the search started from. *)
Fixpoint Index_at (pos : Z) (s substr : string) : Z :=
  if HasPrefix s substr then pos
  else match s with
       | EmptyString => -1
       | String _ s' => Index_at (pos + 1) s' substr
       end.

Definition Index (s substr : string) : Z := Index_at 0 s substr.

(** [strings.IndexRune(s, r)] for a rune below 0x80, which the library
    answers with a byte search. *)
Fixpoint IndexRune_at (pos : Z) (s : string) (r : ascii) : Z :=
  match s with
  | EmptyString => -1
  | String c s' => if Ascii.eqb c r then pos else IndexRune_at (pos + 1) s' r
  end.

Definition IndexRune (s : string) (r : ascii) : Z := IndexRune_at 0 s r.

(** [strings.Contains(s, substr)] *)
Definition Contains (s substr : string) : bool := 0 <=? Index s substr.

(** [strings.NewReplacer] on one-byte old strings builds a table from a
    byte to its replacement, the first pair for a byte winning;
    [Replace] rewrites byte by byte. *)
Definition Replacer : Type := ascii -> option string.

Definition NewReplacer (oldnew : list (ascii * string)) : Replacer :=
  fun b => snd <$> List.find (fun on => Ascii.eqb (fst on) b) oldnew.

Fixpoint Replace (r : Replacer) (s : string) : string :=
  match s with
  | EmptyString => EmptyString
  | String b s' =>
      match r b with
      | Some new => new +:+ Replace r s'
      | None => String b (Replace r s')
      end
  end.

(** Whether byte [c] occurs in [s] *)
Fixpoint has_byte (c : ascii) (s : string) : bool :=
  match s with
  | EmptyString => false
  | String a s' => Ascii.eqb a c || has_byte c s'
  end.

End GoString.

(** ** provider.go: identifier quoting *)

Definition backtick : ascii := "`"%char.

Definition identQuoteReplacer : GoString.Replacer :=
  GoString.NewReplacer [(backtick, "``")].

(** [fmt.Sprintf("`%s`", identQuoteReplacer.Replace(in))] *)
Definition quoteIdentifier (in_ : string) : string :=
  "`" +:+ GoString.Replace identQuoteReplacer in_ +:+ "`".

(** ** resource_db.go: constants and the parser of SHOW CREATE DATABASE *)

Definition defCharSetKey : string := "CHARACTER SET ".
Definition defaultCollateKey : string := "COLLATE ".
Definition unknownDatabaseErr : Z := 1049.

Definition extractIdentAfter (sql keyword : string) : result string :=
  let charsetIndex := GoString.Index sql keyword in
  if negb (charsetIndex =? -1) then
    let charsetIndex := charsetIndex + GoString.len keyword in
    remain ← GoString.slice_from sql charsetIndex;
    let spaceIndex := GoString.IndexRune remain " "%char in
    GoString.slice_to remain spaceIndex
  else Val "".

(** ** Go errors

    The dynamic types of error the provider tells apart, and [Error()].
    [ErrorString] is the value [fmt.Errorf] (without a wrapping verb) and
    [errors.New] build; [OtherError] stands for a driver or network error
    of any other dynamic type, named by [kind]. *)

Inductive error : Type :=
  | MySQLError (Number : Z) (Message : string)   (* *mysql.MySQLError *)
  | ErrNoRows                                    (* sql.ErrNoRows *)
  | ErrorString (s : string)
  | OtherError (kind msg : string).

Global Instance error_eq_dec : EqDecision error.
Proof. solve_decision. Defined.

Definition Error (e : error) : string :=
  match e with
  | MySQLError n m => "Error " +:+ pretty n +:+ ": " +:+ m
  | ErrNoRows => "sql: no rows in result set"
  | ErrorString s => s
  | OtherError _ m => m
  end.

(** ** The slice of terraform-plugin-sdk's [schema] package the provider uses

    [value] is what an [interface{}] handed out by [ResourceData.Get] can
    hold.  A [ResourceData] is the schema it was built for, the merged view
    of its attributes and its ID.  As in the SDK, [Get] of a key the schema
    does not declare is the nil interface, [Get] of a declared key without
    a value is the zero value of its type, and [Set] of an undeclared key
    (or of a value of another type) reports an error, which both callers
    below drop, and writes nothing. *)

Inductive ValueType : Set := TypeString | TypeInt | TypeMap.

Inductive value : Type :=
  | VNil
  | VString (s : string)
  | VInt (n : Z)
  | VMap (m : list (string * string)).

Record Schema : Type := {
  Type_ : ValueType;
  Required : bool;
  Optional : bool;
  ForceNew : bool;
  Default : value
}.

Definition err_of_sum {A} (r : error + A) : option error :=
  match r with
  | inl err => Some err
  | inr _ => None
  end.

Definition Zero (t : ValueType) : value :=
  match t with
  | TypeString => VString ""
  | TypeInt => VInt 0
  | TypeMap => VMap []
  end.

Definition has_type (v : value) (t : ValueType) : bool :=
  match v, t with
  | VString _, TypeString | VInt _, TypeInt | VMap _, TypeMap => true
  | _, _ => false
  end.

Record ResourceData : Type := {
  schema : gmap string Schema;
  attrs : gmap string value;
  resourceId : string
}.

Definition Get (d : ResourceData) (key : string) : value :=
  match schema d !! key with
  | Some sch => default (Zero (Type_ sch)) (attrs d !! key)
  | None => VNil
  end.

Definition Set_ (d : ResourceData) (key : string) (v : value) : ResourceData :=
  match schema d !! key with
  | Some sch =>
      if has_type v (Type_ sch)
      then {| schema := schema d; attrs := <[key := v]> (attrs d); resourceId := resourceId d |}
      else d
  | None => d
  end.

Definition Id (d : ResourceData) : string := resourceId d.

Definition SetId (d : ResourceData) (v : string) : ResourceData :=
  {| schema := schema d; attrs := attrs d; resourceId := v |}.

(** The resource data the plugin host hands to a callback: the configured
    attributes over the defaults of the schema. *)
Definition default_of (sch : Schema) : option value :=
  match Default sch with
  | VNil => None
  | v => Some v
  end.

Definition NewResourceData (sch : gmap string Schema)
    (config : list (string * value)) : ResourceData :=
  {| schema := sch;
     attrs := list_to_map config ∪ omap default_of sch;
     resourceId := "" |}.

(** The type assertions [x.(string)] and [x.(int)] *)
Definition assert_string (v : value) : result string :=
  match v with
  | VString s => Val s
  | VNil => Panic NilInterfaceConversion
  | _ => Panic WrongInterfaceConversion
  end.

Definition assert_int (v : value) : result Z :=
  match v with
  | VInt n => Val n
  | VNil => Panic NilInterfaceConversion
  | _ => Panic WrongInterfaceConversion
  end.

(** ** resource_db.go: the schema of [mysql_database] and the statement builder *)

Definition ResourceDB_Schema : gmap string Schema :=
  list_to_map
    [ ("name",
       {| Type_ := TypeString; Required := true; Optional := false;
          ForceNew := true; Default := VNil |});
      ("default_charset",
       {| Type_ := TypeString; Required := false; Optional := true;
          ForceNew := false; Default := VString "utf8" |});
      ("default_collation",
       {| Type_ := TypeString; Required := false; Optional := true;
          ForceNew := false; Default := VString "utf8_general_ci" |}) ].

Definition databaseSQLCMD (verb : string) (d : ResourceData) : result string :=
  name ← assert_string (Get d "name");
  defaultCharset ← assert_string (Get d "default_character_set");
  defaultCollation ← assert_string (Get d "default_collation");
  let defaultCharsetClause :=
    if negb (String.eqb defaultCharset "")
    then defCharSetKey +:+ quoteIdentifier defaultCharset else "" in
  let defaultCollationClause :=
    if negb (String.eqb defaultCollation "")
    then defaultCollateKey +:+ quoteIdentifier defaultCollation else "" in
  Val (verb +:+ " DATABASE " +:+ quoteIdentifier name +:+ " "
         +:+ defaultCharsetClause +:+ " " +:+ defaultCollationClause).


(** ** provider.go: configuration records *)

Definition cleartextPasswords : string := "cleartext".
Definition nativePasswords : string := "native".

(** The fields of [mysql.Config] the provider fills in. *)
Record Config : Type := {
  User : string;
  Passwd : string;
  Net : string;
  Addr : string;
  TLSConfig : string;
  AllowNativePasswords : bool;
  AllowCleartextPasswords : bool
}.

(** A [*sql.DB]: the data source it was opened on and its pool settings. *)
Record DB : Type := {
  dsn : string;
  connMaxLifetime : Z;
  maxOpenConns : Z
}.

(** What [sql.Open] returns: no limit on the pool yet *)
Definition fresh_handle (dataSourceName : string) : DB :=
  {| dsn := dataSourceName; connMaxLifetime := 0; maxOpenConns := 0 |}.

(** [Db] is [None] for the nil handle. Durations are nanoseconds. *)
Record MySQLConfiguration : Type := {
  Config_ : Config;
  Db : option DB;
  MaxConnLifetime : Z;
  MaxOpenConns : Z;
  ConnectRetryTimeoutSec : Z
}.

(** Arithmetic of [int64], the type under [time.Duration] *)
Definition wrap64 (z : Z) : Z := (z + 2 ^ 63) mod 2 ^ 64 - 2 ^ 63.

Definition Millisecond : Z := 1000000.
Definition Second : Z := 1000000000.

(** ** The outside world

    Every call that leaves the process is logged; what it answers and how
    long it takes is the environment's business. *)

Inductive Call : Type :=
  | CallOpen (dataSourceName : string)                  (* sql.Open("mysql", dsn) *)
  | CallPing (db : DB)                                  (* db.Ping() *)
  | CallExec (db : DB) (query : string)                 (* db.Exec(query) *)
  | CallQueryRow (db : DB) (query : string) (args : list string)
                                                        (* db.QueryRow(query, args...) *)
  | CallServerVersion (db : DB)
  | CallServerVersionString (db : DB)
  | CallSleep (d : Z).

(** One line of the log of calls: when the call was made, what it was and
    the error it reported, if any. *)
Record Entry : Type := {
  at_time : Z;
  what : Call;
  failed : option error
}.

Record Env : Type := {
  Srv : Type;       (* the state of the server and the network *)
  Version : Type;   (* *version.Version of hashicorp/go-version *)
  URL : Type;       (* *url.URL *)
  Dialer : Type;    (* proxy.Dialer *)
  (* github.com/go-sql-driver/mysql and database/sql *)
  FormatDSN : Config -> string;
  sql_Open : string -> Srv -> option error * Srv;
  db_Ping : DB -> Srv -> option error * Srv;
  db_Exec : DB -> string -> Srv -> option error * Srv;
  (* the query error, or the first row of the answer if there is one *)
  db_QueryRow : DB -> string -> list string -> Srv -> (error + option (list string)) * Srv;
  (* helpers of this package that resource_db.go calls and that are not
     among the sources: the server's version, parsed, and as text *)
  mySQLServerVersion : DB -> Srv -> (error + Version) * Srv;
  mySQLServerVersionString : DB -> Srv -> (error + string) * Srv;
  (* the value of version.NewVersion("8.0.0"), and v.GreaterThan(o) *)
  requiredVersion : Version;
  GreaterThan : Version -> Version -> bool;
  (* net/url and golang.org/x/net/proxy *)
  url_Parse : string -> error + URL;
  proxy_FromURL : URL -> error + Dialer;
  proxy_FromEnvironment : Dialer;
  (* how long a call takes, in nanoseconds *)
  took : Call -> Srv -> Z
}.

(** [Row.Scan(dest...)] of database/sql: the query error if there is
    one, [sql.ErrNoRows] on an empty answer, an error when the number of
    destinations is not the number of columns, the columns otherwise. *)
Definition Row_Scan (row : error + option (list string)) (ndest : nat)
    : error + list string :=
  match row with
  | inl err => inl err
  | inr None => inl ErrNoRows
  | inr (Some cols) =>
      if decide (length cols = ndest) then inr cols
      else inl (ErrorString ("sql: expected " +:+ pretty (length cols)
                   +:+ " destination arguments in Scan, not " +:+ pretty ndest))
  end.

(** ** provider.go: the provider schema

    The attributes [providerConfigure] reads, with their types and static
    defaults, and the [ValidateFunc] of [endpoint]. *)

Definition Provider_Schema : gmap string Schema :=
  let attr t req dflt :=
    {| Type_ := t; Required := req; Optional := negb req;
       ForceNew := false; Default := dflt |} in
  list_to_map
    [ ("endpoint", attr TypeString true VNil);
      ("username", attr TypeString true VNil);
      ("password", attr TypeString true VNil);
      ("proxy", attr TypeString false VNil);
      ("tls", attr TypeString false VNil);
      ("max_conn_lifetime_sec", attr TypeInt false VNil);
      ("max_open_conns", attr TypeInt false VNil);
      ("conn_params", attr TypeMap false VNil);
      ("authentication_plugin", attr TypeString false (VString nativePasswords));
      ("connect_retry_timeout_sec", attr TypeInt false (VInt 300)) ].

(** The warnings and the errors for value [v] of attribute [k] *)
Definition endpoint_ValidateFunc (v : value) (k : string) : list string * list error :=
  match v with
  | VString _ => ([], [])
  | _ => ([], [ErrorString "Mysql endpoint url must not be an empty string"])
  end.

Section Provider.

Variable env : Env.

Record World : Type := {
  srv : Srv env;
  clock : Z;                          (* nanoseconds *)
  trace : list Entry;                 (* the calls made so far, oldest first *)
  dialContext : option (Dialer env)   (* mysql.RegisterDialContext("tcp", ...) *)
}.

(** Go code that talks to the world and may panic *)
Definition M (A : Type) : Type := World -> result A * World.

Definition ret {A} (a : A) : M A := fun w => (Val a, w).

Definition bind {A B} (m : M A) (f : A -> M B) : M B := fun w =>
  match m w with
  | (Val a, w') => f a w'
  | (Panic p, w') => (Panic p, w')
  end.

Definition lift {A} (r : result A) : M A := fun w => (r, w).

Definition panic_with {A} (p : panic) : M A := lift (Panic p).

Global Instance M_ret : MRet M := @ret.
Global Instance M_bind : MBind M := fun _ _ f m => bind m f.

Definition call {A} (c : Call) (err_of : A -> option error)
    (f : Srv env -> A * Srv env) : M A := fun w =>
  let '(a, s') := f (srv w) in
  (Val a, {| srv := s';
             clock := clock w + Z.max 0 (took env c (srv w));
             trace := trace w ++ [{| at_time := clock w; what := c; failed := err_of a |}];
             dialContext := dialContext w |}).

Definition sleep (d : Z) : M unit := fun w =>
  (Val tt, {| srv := srv w;
              clock := clock w + Z.max 0 d;
              trace := trace w ++ [{| at_time := clock w; what := CallSleep d; failed := None |}];
              dialContext := dialContext w |}).

Definition now : M Z := fun w => (Val (clock w), w).

Definition RegisterDialContext (dl : Dialer env) : M unit := fun w =>
  (Val tt, {| srv := srv w; clock := clock w; trace := trace w;
              dialContext := Some dl |}).

(** Methods of [*sql.DB]; a nil handle panics. *)
Definition Exec (db : option DB) (query : string) : M (option error) :=
  match db with
  | Some h => call (CallExec h query) id (db_Exec env h query)
  | None => panic_with NilPointerDereference
  end.

Definition QueryRow (db : option DB) (query : string) (args : list string)
    : M (error + option (list string)) :=
  match db with
  | Some h => call (CallQueryRow h query args) err_of_sum (db_QueryRow env h query args)
  | None => panic_with NilPointerDereference
  end.

Definition Ping (db : option DB) : M (option error) :=
  match db with
  | Some h => call (CallPing h) id (db_Ping env h)
  | None => panic_with NilPointerDereference
  end.

Definition serverVersion (db : option DB) : M (error + Version env) :=
  match db with
  | Some h => call (CallServerVersion h) err_of_sum (mySQLServerVersion env h)
  | None => panic_with NilPointerDereference
  end.

Definition serverVersionString (db : option DB) : M (error + string) :=
  match db with
  | Some h => call (CallServerVersionString h) err_of_sum (mySQLServerVersionString env h)
  | None => panic_with NilPointerDereference
  end.

(** *** resource_db.go: ReadDb

    A callback returns its error ([None] for nil) and leaves the resource
    data it was given changed in place: the second component. *)

Definition showCollation : string :=
  "SHOW COLLATION WHERE `Charset` = ? AND `Default` = 'Yes'".

(** Lines 128-132 *)
Definition ReadDb_store (d : ResourceData) (name defaultCharset defaultCollation : string)
    : option error * ResourceData :=
  let d := Set_ d "name" (VString name) in
  let d := Set_ d "default_character_set" (VString defaultCharset) in
  let d := Set_ d "default_collation" (VString defaultCollation) in
  (None, d).

Definition ReadDb (d : ResourceData) (meta : MySQLConfiguration)
    : M (option error * ResourceData) :=
  let db := Db meta in
  let name := Id d in
  let stmtSQL := "SHOW CREATE DATABASE " +:+ quoteIdentifier name in
  row ← QueryRow db stmtSQL [];
  match Row_Scan row 2 with
  | inl err =>
      match err with
      | MySQLError Number _ =>
          if Number =? unknownDatabaseErr then ret (None, SetId d "")
          else ret (Some (ErrorString ("Error during show create database: " +:+ Error err)), d)
      | _ => ret (Some (ErrorString ("Error during show create database: " +:+ Error err)), d)
      end
  | inr cols =>
      let createSQL := nth 1 cols "" in
      defaultCharset ← lift (extractIdentAfter createSQL defCharSetKey);
      defaultCollation ← lift (extractIdentAfter createSQL defaultCollateKey);
      if String.eqb defaultCollation "" && negb (String.eqb defaultCharset "") then
        cv ← serverVersion db;
        match cv with
        | inl err => ret (Some err, d)
        | inr currentVersion =>
            sv ← serverVersionString db;
            match sv with
            | inl err => ret (Some err, d)
            | inr serverVersionString =>
                (* MySQL 8 returns more data in a row. *)
                let ndest :=
                  if negb (GoString.Contains serverVersionString "MariaDB")
                     && GreaterThan env currentVersion (requiredVersion env)
                  then 7%nat else 6%nat in
                row ← QueryRow db showCollation [defaultCharset];
                match Row_Scan row ndest with
                | inl res =>
                    if decide (res = ErrNoRows)
                    then ret (Some (ErrorString ("Charset " +:+ defaultCharset
                                       +:+ " has no default collation")), d)
                    else ret (Some (ErrorString ("Error getting default charset: "
                                       +:+ Error res +:+ ", " +:+ defaultCharset)), d)
                | inr cols =>
                    ret (ReadDb_store d name defaultCharset (nth 0 cols ""))
                end
            end
        end
      else ret (ReadDb_store d name defaultCharset defaultCollation)
  end.

(** *** resource_db.go: CreateDb *)

Definition CreateDb (d : ResourceData) (meta : MySQLConfiguration)
    : M (option error * ResourceData) :=
  let db := Db meta in
  sqlStatment ← lift (databaseSQLCMD "CREATE" d);
  err ← Exec db sqlStatment;
  match err with
  | Some err => ret (Some err, d)
  | None =>
      name ← lift (assert_string (Get d "name"));
      ReadDb (SetId d name) meta
  end.

(** *** The SDK's [resource.Retry], on the logical clock

    [Retry(timeout, f)] runs [f] once, and again after a wait for as long
    as [f] asks for a retry and the timeout has not elapsed; it returns
    the error of the last run.  The waits are the SDK's back-off: 500ms,
    doubling up to 10s.  [c] carries the variables [f] captures. *)

Record RetryError : Type := { Err : error; Retryable : bool }.

Definition RetryableError (err : error) : RetryError :=
  {| Err := err; Retryable := true |}.

Definition MinTimeout : Z := 500 * Millisecond.

Definition next_wait (wait : Z) : Z :=
  let wait := wait * 2 in
  if wait <? MinTimeout then MinTimeout
  else if 10 * Second <? wait then 10 * Second
  else wait.

Fixpoint Retry_loop {C} (fuel : nat) (deadline wait : Z)
    (f : C -> M (option RetryError * C)) (c : C) : M (option error * C) :=
  '(rerr, c) ← f c;
  match rerr with
  | None => mret (None, c)
  | Some rerr =>
      if negb (Retryable rerr) then mret (Some (Err rerr), c)
      else
        let wait := next_wait wait in
        t ← now;
        if t + wait <? deadline then
          (* the wait ends before the timeout: run again *)
          _ ← sleep wait;
          match fuel with
          | O => mret (Some (Err rerr), c)
          | S fuel' => Retry_loop fuel' deadline wait f c
          end
        else
          (* the timeout comes first: give up when it elapses *)
          _ ← sleep (deadline - t);
          mret (Some (Err rerr), c)
  end.

(** Every wait is at least [MinTimeout], so [timeout / MinTimeout + 1]
    rounds always reach the deadline and the loop never stops for lack of
    fuel: see [Retry_loop_fuel]. *)
Definition Retry {C} (timeout : Z) (f : C -> M (option RetryError * C)) (c : C)
    : M (option error * C) :=
  start ← now;
  Retry_loop (Z.to_nat (timeout / MinTimeout + 1)) (start + timeout) 0 f c.

(** *** provider.go: mySQLConnect *)

(** The function literal handed to [resource.Retry]; it assigns the
    captured [db]. *)
Definition connect_once (dsn : string) (_ : option DB)
    : M (option RetryError * option DB) :=
  err ← call (CallOpen dsn) id (sql_Open env dsn);
  match err with
  | Some err => mret (Some (RetryableError err), None)
  | None =>
      let db := Some (fresh_handle dsn) in
      err ← Ping db;
      match err with
      | Some err => mret (Some (RetryableError err), db)
      | None => mret (None, db)
      end
  end.

Definition mySQLConnect (conf : MySQLConfiguration) : M (option DB * option error) :=
  let dsn := FormatDSN env (Config_ conf) in
  '(retryError, db) ← Retry (ConnectRetryTimeoutSec conf) (connect_once dsn) None;
  match retryError with
  | Some retryError =>
      mret (None, Some (ErrorString ("Could not connect to server: " +:+ Error retryError)))
  | None =>
      match db with
      | Some h =>
          mret (Some {| dsn := dsn;
                        connMaxLifetime := Z.max 0 (MaxConnLifetime conf);
                        maxOpenConns := Z.max 0 (MaxOpenConns conf) |}, None)
      | None => panic_with NilPointerDereference
      end
  end.

(** *** provider.go: proxyDialer and providerConfigure *)

Definition proxyDialer (d : ResourceData) : M (error + Dialer env) :=
  let proxyFromEnv := proxy_FromEnvironment env in
  proxyArg ← lift (assert_string (Get d "proxy"));
  if 0 <? GoString.len proxyArg then
    match url_Parse env proxyArg with
    | inl err => mret (inl err)
    | inr proxyurl =>
        match proxy_FromURL env proxyurl with
        | inl err => mret (inl err)
        | inr proxy => mret (inr proxy)
        end
    end
  else mret (inr proxyFromEnv).

Definition providerConfigure (d : ResourceData)
    : M (option MySQLConfiguration * option error) :=
  endpoint ← lift (assert_string (Get d "endpoint"));
  endpoint0 ← lift (GoString.index endpoint 0);
  let proto := if Ascii.eqb endpoint0 "/" then "unix" else "tcp" in
  username ← lift (assert_string (Get d "username"));
  password ← lift (assert_string (Get d "password"));
  tls ← lift (assert_string (Get d "tls"));
  plugin1 ← lift (assert_string (Get d "authentication_plugin"));
  plugin2 ← lift (assert_string (Get d "authentication_plugin"));
  let sqlconf :=
    {| User := username; Passwd := password; Net := proto; Addr := endpoint;
       TLSConfig := tls;
       AllowNativePasswords := String.eqb plugin1 nativePasswords;
       AllowCleartextPasswords := String.eqb plugin2 cleartextPasswords |} in
  dialer ← proxyDialer d;
  match dialer with
  | inl err => mret (None, Some err)
  | inr dialer =>
      _ ← RegisterDialContext dialer;
      lifetime ← lift (assert_int (Get d "max_conn_lifetime_sec"));
      conns ← lift (assert_int (Get d "max_open_conns"));
      timeout ← lift (assert_int (Get d "connect_retry_timeout_sec"));
      let mysqlConf :=
        {| Config_ := sqlconf; Db := None;
           MaxConnLifetime := wrap64 (lifetime * Second);
           MaxOpenConns := conns;
           ConnectRetryTimeoutSec := wrap64 (timeout * Second) |} in
      '(db, err) ← mySQLConnect mysqlConf;
      match err with
      | Some err => mret (None, Some err)
      | None =>
          mret (Some {| Config_ := sqlconf; Db := db;
                        MaxConnLifetime := MaxConnLifetime mysqlConf;
                        MaxOpenConns := MaxOpenConns mysqlConf;
                        ConnectRetryTimeoutSec := ConnectRetryTimeoutSec mysqlConf |},
                None)
      end
  end.

(** *** resource_db.go: ResourceDB *)

(** Modelled from the spec: [UpdateDb], which [ResourceDB] installs as
    the update callback and whose body is not among the sources.  It
    builds its statement with [databaseSQLCMD], the verb being [ALTER]
    where Create passes [CREATE], and applies it. *)
Definition UpdateDb_statement (d : ResourceData) : result string :=
  databaseSQLCMD "ALTER" d.

Definition UpdateDb (d : ResourceData) (meta : MySQLConfiguration)
    : M (option error * ResourceData) :=
  let db := Db meta in
  sqlStatment ← lift (UpdateDb_statement d);
  err ← Exec db sqlStatment;
  mret (err, d).

Definition Callback : Type :=
  ResourceData -> MySQLConfiguration -> M (option error * ResourceData).

Record Resource : Type := {
  Schema_ : gmap string Schema;
  SchemaVersion : Z;
  Create : option Callback;
  Read : option Callback;
  Update : option Callback;
  Delete : option Callback
}.

Definition ResourceDB : Resource :=
  {| Schema_ := ResourceDB_Schema;
     SchemaVersion := 0;
     Create := Some CreateDb;
     Read := None;
     Update := Some UpdateDb;
     Delete := None |}.

End Provider.


Arguments srv {env} _.
Arguments clock {env} _.
Arguments trace {env} _.
Arguments dialContext {env} _.

(** ** Notions the statements below are phrased in *)

(** [keyword] occurs in [s] at byte offset [i]. *)
Definition occurs_at (keyword s : string) (i : nat) : Prop :=
  exists before after, s = before +:+ keyword +:+ after /\ String.length before = i.

Definition first_occurrence (keyword s : string) (i : nat) : Prop :=
  occurs_at keyword s i /\ forall j, (j < i)%nat -> ~ occurs_at keyword s j.

Definition absent (keyword s : string) : Prop :=
  forall i, ~ occurs_at keyword s i.

Definition contains (s sub : string) : Prop :=
  exists i, occurs_at sub s i.

(** The spec's words for the quoting: every backtick written twice. *)
Fixpoint double_backticks (s : string) : string :=
  match s with
  | EmptyString => EmptyString
  | String c s' =>
      if Ascii.eqb c backtick
      then String backtick (String backtick (double_backticks s'))
      else String c (double_backticks s')
  end.

(** How a reader of the statement gets the identifier back from between
    the quotes: a pair of backticks is one, a single one is malformed. *)
Fixpoint undouble_backticks (s : string) : option string :=
  match s with
  | EmptyString => Some EmptyString
  | String c s' =>
      if Ascii.eqb c backtick then
        match s' with
        | String c' s'' =>
            if Ascii.eqb c' backtick
            then String backtick <$> undouble_backticks s''
            else None
        | EmptyString => None
        end
      else String c <$> undouble_backticks s'
  end.

(** [key] followed by the quoted identifier, or nothing for the empty one *)
Definition quoted_clause (key ident : string) : string :=
  match ident with
  | EmptyString => ""
  | _ => key +:+ "`" +:+ double_backticks ident +:+ "`"
  end.

(** ** A fixed environment to run the model in

    A server without state: opening and pinging answer [open] and [ping],
    a statement and a query are answered by [exec] and [query], the
    version is [ver] (compared as a number) and [verstr], and every call
    takes [lat] nanoseconds. *)
Definition fixed_env (open ping : option error) (exec : string -> option error)
    (query : string -> list string -> error + option (list string))
    (ver : error + Z) (verstr : error + string) (lat : Z) : Env :=
  {| Srv := unit; Version := Z; URL := string; Dialer := string;
     FormatDSN := fun c =>
       User c +:+ ":" +:+ Passwd c +:+ "@" +:+ Net c +:+ "(" +:+ Addr c +:+ ")/";
     sql_Open := fun _ s => (open, s);
     db_Ping := fun _ s => (ping, s);
     db_Exec := fun _ q s => (exec q, s);
     db_QueryRow := fun _ q args s => (query q args, s);
     mySQLServerVersion := fun _ s => (ver, s);
     mySQLServerVersionString := fun _ s => (verstr, s);
     requiredVersion := 80000;
     GreaterThan := fun v o => o <? v;
     url_Parse := fun u => inr u;
     proxy_FromURL := fun u => inr u;
     proxy_FromEnvironment := "direct";
     took := fun _ _ => lat |}.

Definition start_world (env : Env) (s : Srv env) : World env :=
  {| srv := s; clock := 0; trace := []; dialContext := None |}.

(** The last call of a log that is not a wait *)
Definition is_sleep (e : Entry) : bool :=
  match what e with
  | CallSleep _ => true
  | _ => false
  end.

Definition is_open (e : Entry) : bool :=
  match what e with
  | CallOpen _ => true
  | _ => false
  end.

Definition last_call (log : list Entry) : option Entry :=
  last (List.filter (fun e => negb (is_sleep e)) log).

(** Resource data for a schema of three string attributes, the middle one
    under the key [charset_key] *)
Definition string_attribute : Schema :=
  {| Type_ := TypeString; Required := false; Optional := true;
     ForceNew := false; Default := VNil |}.

Definition database_data (charset_key name charset collation : string) : ResourceData :=
  {| schema := list_to_map [ ("name", string_attribute);
                             (charset_key, string_attribute);
                             ("default_collation", string_attribute) ];
     attrs := list_to_map [ ("name", VString name);
                            (charset_key, VString charset);
                            ("default_collation", VString collation) ];
     resourceId := "" |}.

(** The world after one call [c] answered with error [failed], the server
    moving to [s']: the clock has advanced and the log has one more line. *)
Definition after_call (env : Env) (w : World env) (c : Call)
    (failed : option error) (s' : Srv env) : World env :=
  {| srv := s';
     clock := clock w + Z.max 0 (took env c (srv w));
     trace := trace w ++ [{| at_time := clock w; what := c; failed := failed |}];
     dialContext := dialContext w |}.

(** The world after a wait of [d] *)
Definition after_sleep (env : Env) (w : World env) (d : Z) : World env :=
  {| srv := srv w;
     clock := clock w + Z.max 0 d;
     trace := trace w ++ [{| at_time := clock w; what := CallSleep d; failed := None |}];
     dialContext := dialContext w |}.

(** The statement [ReadDb] sends for the database called [name] *)
Definition showCreateDatabase (name : string) : string :=
  "SHOW CREATE DATABASE " +:+ quoteIdentifier name.

(** Sample values: a handle, the configuration around it, and the data of
    a [mysql_database] resource as the schema of [ResourceDB] declares it *)
Definition sample_db : DB :=
  {| dsn := "root:secret@tcp(db:3306)/"; connMaxLifetime := 0; maxOpenConns := 0 |}.

Definition sample_config : Config :=
  {| User := "root"; Passwd := "secret"; Net := "tcp"; Addr := "db:3306";
     TLSConfig := "false"; AllowNativePasswords := true;
     AllowCleartextPasswords := false |}.

Definition sample_meta : MySQLConfiguration :=
  {| Config_ := sample_config; Db := Some sample_db; MaxConnLifetime := 0;
     MaxOpenConns := 0; ConnectRetryTimeoutSec := 300 * Second |}.

Definition utf8mb4_database : ResourceData :=
  NewResourceData ResourceDB_Schema
    [ ("name", VString "app");
      ("default_charset", VString "utf8mb4");
      ("default_collation", VString "utf8mb4_unicode_ci") ].

(** A server that answers every query with [answer] *)
Definition answering (answer : error + option (list string)) : Env :=
  fixed_env None None (fun _ => None) (fun _ _ => answer)
    (inr 50730) (inr "5.7.30-log") Millisecond.

(** A server with a database [app] in character set [klingon], for which
    it knows no default collation *)
Definition no_default_collation : Env :=
  fixed_env None None (fun _ => None)
    (fun query _ =>
       if GoString.HasPrefix query "SHOW CREATE DATABASE "
       then inr (Some ["app"; "CREATE DATABASE `app` /*!40100 DEFAULT CHARACTER SET klingon */"])
       else inr None)
    (inr 50730) (inr "5.7.30-log") Millisecond.

(** A provider configuration whose endpoint is the empty string *)
Definition empty_endpoint : ResourceData :=
  NewResourceData Provider_Schema
    [ ("endpoint", VString "");
      ("username", VString "root");
      ("password", VString "secret");
      ("tls", VString "false") ].

(** What a run of the loop leaves behind *)
Definition connect_outcome (env : Env) (dsn : string) (deadline : Z) (w : World env)
    (out : result (option error * option DB) * World env) : Prop :=
  exists oe c' w' first rest,
    out = (Val (oe, c'), w') /\
    trace w' = trace w ++ first :: rest /\
    what first = CallOpen dsn /\ at_time first = clock w /\
    (forall e, e ∈ rest -> is_open e = true -> at_time e < deadline) /\
    (forall err, oe = Some err ->
       exists entry, last_call (trace w') = Some entry /\ failed entry = Some err) /\
    (oe = None -> is_Some c').

(** A server that accepts no connection, and a configuration that gives
    it three seconds *)
Definition unreachable : Env :=
  fixed_env None (Some (OtherError "*net.OpError" "dial tcp: connection refused"))
    (fun _ => None) (fun _ _ => inr None) (inr 50730) (inr "5.7.30-log") Millisecond.

Definition three_seconds : MySQLConfiguration :=
  {| Config_ := sample_config; Db := None; MaxConnLifetime := 0;
     MaxOpenConns := 0; ConnectRetryTimeoutSec := 3 * Second |}.

(** ** Reading a quoted identifier back

    How a reader of SQL text takes a backtick-quoted identifier off the
    front of [s]: the identifier runs to the first backtick that is not
    followed by another one, two backticks in a row standing for one.  The
    result is the identifier and the text after the closing quote; [None]
    when [s] does not start with a quote or the quote is never closed. *)
Fixpoint read_quoted_body (s : string) : option (string * string) :=
  match s with
  | EmptyString => None
  | String c s' =>
      if Ascii.eqb c backtick then
        match s' with
        | String c' s'' =>
            if Ascii.eqb c' backtick
            then (fun r => (String backtick (fst r), snd r)) <$> read_quoted_body s''
            else Some (EmptyString, s')
        | EmptyString => Some (EmptyString, EmptyString)
        end
      else (fun r => (String c (fst r), snd r)) <$> read_quoted_body s'
  end.

Definition read_quoted (s : string) : option (string * string) :=
  match s with
  | String c s' => if Ascii.eqb c backtick then read_quoted_body s' else None
  | EmptyString => None
  end.

(** The calls that only ask the server something *)
Definition is_query (e : Entry) : bool :=
  match what e with
  | CallQueryRow _ _ _ | CallServerVersion _ | CallServerVersionString _ => true
  | _ => false
  end.

(** How many times a log opens a data source *)
Definition attempts (log : list Entry) : nat :=
  List.length (List.filter is_open log).

(** A server with a database [app] in character set [latin1], which
    answers the lookup of the default collation with [lookup] *)
Definition latin1_server (ver : error + Z) (verstr : error + string)
    (lookup : error + option (list string)) : Env :=
  fixed_env None None (fun _ => None)
    (fun query _ =>
       if GoString.HasPrefix query "SHOW CREATE DATABASE "
       then inr (Some ["app"; "CREATE DATABASE `app` /*!40100 DEFAULT CHARACTER SET latin1 */"])
       else lookup)
    ver verstr Millisecond.

(** The row MySQL 5.7 and MariaDB answer SHOW COLLATION with, and the one
    of MySQL 8, which has a column more *)
Definition latin1_row6 : list string :=
  ["latin1_swedish_ci"; "latin1"; "8"; "Yes"; "Yes"; "1"].

Definition latin1_row7 : list string :=
  ["latin1_swedish_ci"; "latin1"; "8"; "Yes"; "Yes"; "1"; "PAD SPACE"].

(** The calls the connector makes: opening, pinging and waiting *)
Definition is_connect (e : Entry) : bool :=
  match what e with
  | CallOpen _ | CallPing _ | CallSleep _ => true
  | _ => false
  end.

(** The two lines a successful attempt on [dsn] leaves in the log *)
Definition connected (dsn : string) (t1 t2 : Z) : list Entry :=
  [ {| at_time := t1; what := CallOpen dsn; failed := None |};
    {| at_time := t2; what := CallPing (fresh_handle dsn); failed := None |} ].

(** Resource data as the SDK hands them out: what is stored under a
    declared key has the type the schema declares for it. *)
Definition typed_attr (sch : gmap string Schema) (key : string) (v : value) : bool :=
  match sch !! key with
  | Some s => has_type v (Type_ s)
  | None => true
  end.

Definition well_typed (d : ResourceData) : Prop :=
  map_Forall (fun key v => typed_attr (schema d) key v = true) (attrs d).

(** The world once [dialer] has been registered *)
Definition registered (env : Env) (w : World env) (dialer : Dialer env) : World env :=
  {| srv := srv w; clock := clock w; trace := trace w; dialContext := Some dialer |}.

(** A provider configuration with a SOCKS proxy, and an environment in
    which no proxy URL parses *)
Definition behind_proxy : ResourceData :=
  NewResourceData Provider_Schema
    [ ("endpoint", VString "db:3306");
      ("username", VString "root");
      ("password", VString "secret");
      ("proxy", VString "socks5://bastion:1080");
      ("tls", VString "false") ].

Definition no_proxy_parses : Env :=
  let env := answering (inr None) in
  {| Srv := Srv env; Version := Version env; URL := URL env; Dialer := Dialer env;
     FormatDSN := FormatDSN env;
     sql_Open := sql_Open env;
     db_Ping := db_Ping env;
     db_Exec := db_Exec env;
     db_QueryRow := db_QueryRow env;
     mySQLServerVersion := mySQLServerVersion env;
     mySQLServerVersionString := mySQLServerVersionString env;
     requiredVersion := requiredVersion env;
     GreaterThan := GreaterThan env;
     url_Parse := fun u => inl (OtherError "*url.Error" ("parse " +:+ u +:+ ": invalid port"));
     proxy_FromURL := proxy_FromURL env;
     proxy_FromEnvironment := proxy_FromEnvironment env;
     took := took env |}.

(** ** The logs a connector may leave

    A run of the function literal that failed with [e], as the log shows
    it from time [start]: the open failed, or the open succeeded and the
    ping of the new handle failed. *)
Definition failed_attempt (dsn : string) (start : Z) (e : error) (att : list Entry) : Prop :=
  att = [{| at_time := start; what := CallOpen dsn; failed := Some e |}] \/
  exists t, start <= t /\
    att = [{| at_time := start; what := CallOpen dsn; failed := None |};
           {| at_time := t; what := CallPing (fresh_handle dsn); failed := Some e |}].

(** [retry_log dsn deadline wait start log cause]: [log] is what
    connecting to [dsn] with retries until [deadline] leaves behind, from
    an attempt that starts at [start], [wait] being the wait before it.
    Every attempt is an open and, when the open succeeded, a ping.  The
    log ends with the first attempt whose open and ping both succeed
    ([cause] is [None]).  After an attempt that failed at time [t] comes
    the next wait of the back-off and another attempt, as long as that
    wait ends before the deadline; when it does not, the log ends with a
    wait for the deadline, and [cause] is the error of that last attempt. *)
Inductive retry_log (dsn : string) (deadline : Z)
    : Z -> Z -> list Entry -> option error -> Prop :=
  | retry_connected wait start t :
      start <= t ->
      retry_log dsn deadline wait start (connected dsn start t) None
  | retry_again wait start att e t rest cause :
      failed_attempt dsn start e att ->
      start <= t ->
      t + next_wait wait < deadline ->
      retry_log dsn deadline (next_wait wait) (t + next_wait wait) rest cause ->
      retry_log dsn deadline wait start
        (att ++ {| at_time := t; what := CallSleep (next_wait wait); failed := None |} :: rest)
        cause
  | retry_exhausted wait start att e t :
      failed_attempt dsn start e att ->
      start <= t ->
      deadline <= t + next_wait wait ->
      retry_log dsn deadline wait start
        (att ++ [{| at_time := t; what := CallSleep (deadline - t); failed := None |}])
        (Some e).

(** * Properties *)

(** ** Facts about the string primitives *)

Module GoStringFacts.
Import GoString.

Lemma app_nil_l s : "" +:+ s = s.
Proof. reflexivity. Qed.

Lemma app_cons c s t : String c s +:+ t = String c (s +:+ t).
Proof. reflexivity. Qed.

Lemma app_nil_r s : s +:+ "" = s.
Proof. induction s as [|c s IH]; [done|]. by rewrite app_cons, IH. Qed.

Lemma app_assoc s t u : (s +:+ t) +:+ u = s +:+ t +:+ u.
Proof. induction s as [|c s IH]; [done|]. by rewrite !app_cons, IH. Qed.

Lemma length_app s t :
  String.length (s +:+ t) = (String.length s + String.length t)%nat.
Proof. induction s as [|c s IH]; [done|]. rewrite app_cons. simpl. by rewrite IH. Qed.

Lemma len_app s t : len (s +:+ t) = len s + len t.
Proof. unfold len. rewrite length_app. lia. Qed.

Lemma len_nonneg s : 0 <= len s.
Proof. unfold len. lia. Qed.

Lemma drop_app_length s t : drop (String.length s) (s +:+ t) = t.
Proof. induction s as [|c s IH]; [by destruct t|]. by rewrite app_cons. Qed.

Lemma drop_app_plus s t n :
  drop (String.length s + n) (s +:+ t) = drop n t.
Proof. induction s as [|c s IH]; [done|]. by rewrite app_cons. Qed.

Lemma take_app_length s t : take (String.length s) (s +:+ t) = s.
Proof.
  induction s as [|c s IH]; [by destruct t|].
  rewrite app_cons. simpl. by rewrite IH.
Qed.

Lemma drop_drop n m s : drop n (drop m s) = drop (m + n) s.
Proof.
  revert s. induction m as [|m IH]; intros s; [done|].
  destruct s as [|c s]; simpl; [by destruct n|]. apply IH.
Qed.

Lemma length_drop n s : String.length (drop n s) = (String.length s - n)%nat.
Proof.
  revert s. induction n as [|n IH]; intros s; simpl; [lia|].
  destruct s as [|c s]; simpl; [done|]. apply IH.
Qed.

Lemma take_drop n s : take n s +:+ drop n s = s.
Proof.
  revert s. induction n as [|n IH]; intros s; [done|].
  destruct s as [|c s]; [done|]. simpl. by rewrite app_cons, IH.
Qed.

(** [HasPrefix] is the prefix relation. *)
Lemma HasPrefix_app p t : HasPrefix (p +:+ t) p = true.
Proof.
  induction p as [|c p IH]; [done|].
  rewrite app_cons. simpl. by rewrite Ascii.eqb_refl, IH.
Qed.

Lemma HasPrefix_inv s p : HasPrefix s p = true -> s = p +:+ drop (String.length p) s.
Proof.
  revert s. induction p as [|c p IH]; intros s H; [done|].
  destruct s as [|a s]; [done|]. simpl in H.
  apply andb_true_iff in H as [Hc Hp]. apply Ascii.eqb_eq in Hc as ->.
  rewrite app_cons. simpl. by rewrite <- IH.
Qed.

Lemma HasPrefix_length s p :
  HasPrefix s p = true -> (String.length p <= String.length s)%nat.
Proof.
  intros H. rewrite (HasPrefix_inv _ _ H), length_app. lia.
Qed.

(** [Index]: where it points, and that nothing matches before. *)
Lemma Index_at_first pos s substr i :
  (forall j, (j < i)%nat -> HasPrefix (drop j s) substr = false) ->
  HasPrefix (drop i s) substr = true ->
  Index_at pos s substr = pos + Z.of_nat i.
Proof.
  revert pos s. induction i as [|i IH]; intros pos s Hbefore Hat.
  - simpl in Hat. destruct s; simpl; rewrite Hat; lia.
  - pose proof (Hbefore 0%nat ltac:(lia)) as H0. simpl in H0.
    destruct s as [|c s].
    + simpl in Hat. congruence.
    + simpl. simpl in H0. rewrite H0.
      rewrite (IH (pos + 1) s).
      * lia.
      * intros j Hj. apply (Hbefore (S j)). lia.
      * exact Hat.
Qed.

Lemma Index_at_absent pos s substr :
  (forall j, HasPrefix (drop j s) substr = false) ->
  Index_at pos s substr = -1.
Proof.
  revert pos. induction s as [|c s IH]; intros pos H.
  - pose proof (H 0%nat) as H0. simpl in H0. simpl. by rewrite H0.
  - pose proof (H 0%nat) as H0. simpl in H0. simpl. rewrite H0.
    apply IH. intros j. apply (H (S j)).
Qed.

Lemma Index_at_found pos s substr :
  Index_at pos s substr <> -1 -> 0 <= pos ->
  exists i : nat,
    Index_at pos s substr = pos + Z.of_nat i /\
    HasPrefix (drop i s) substr = true /\
    forall j, (j < i)%nat -> HasPrefix (drop j s) substr = false.
Proof.
  revert pos. induction s as [|c s IH]; intros pos Hne Hpos.
  - simpl in Hne. destruct (HasPrefix "" substr) eqn:E; [|done].
    exists 0%nat. simpl. rewrite E. split; [lia|]. split; [done|]. intros; lia.
  - simpl in Hne. destruct (HasPrefix (String c s) substr) eqn:E.
    + exists 0%nat. simpl. rewrite E. split; [lia|]. split; [done|]. intros; lia.
    + destruct (IH (pos + 1) Hne ltac:(lia)) as (i & Hi & Hat & Hbefore).
      exists (S i). simpl. rewrite E. split; [lia|]. split; [done|].
      intros [|j] Hj; [done|]. apply Hbefore. lia.
Qed.

Lemma Index_at_absent_inv pos s substr :
  Index_at pos s substr = -1 -> 0 <= pos ->
  forall j, HasPrefix (drop j s) substr = false.
Proof.
  revert pos. induction s as [|c s IH]; intros pos H Hpos j.
  - simpl in H. destruct (HasPrefix "" substr) eqn:E; [lia|]. by destruct j.
  - simpl in H. destruct (HasPrefix (String c s) substr) eqn:E; [lia|].
    destruct j as [|j]; [done|]. simpl. by apply (IH (pos + 1)); [|lia].
Qed.

Lemma IndexRune_at_absent pos s c :
  has_byte c s = false -> IndexRune_at pos s c = -1.
Proof.
  revert pos. induction s as [|a s IH]; intros pos H; [done|].
  simpl in *. apply orb_false_iff in H as [-> H]. by apply IH.
Qed.

Lemma IndexRune_at_token pos tok rest c :
  has_byte c tok = false ->
  IndexRune_at pos (tok +:+ String c rest) c = pos + len tok.
Proof.
  revert pos. induction tok as [|a tok IH]; intros pos H.
  - rewrite app_nil_l. simpl. rewrite Ascii.eqb_refl. unfold len. simpl. lia.
  - simpl in H. apply orb_false_iff in H as [Ha H].
    rewrite app_cons. simpl. rewrite Ha, IH by done. unfold len. simpl. lia.
Qed.

Lemma IndexRune_at_found pos s c :
  IndexRune_at pos s c <> -1 ->
  exists tok rest, s = tok +:+ String c rest /\ has_byte c tok = false.
Proof.
  revert pos. induction s as [|a s IH]; intros pos H; [done|].
  simpl in H. destruct (Ascii.eqb a c) eqn:E.
  - apply Ascii.eqb_eq in E as ->. by exists "", s.
  - destruct (IH _ H) as (tok & rest & -> & Htok).
    exists (String a tok), rest. split; [done|]. simpl. by rewrite E.
Qed.

End GoStringFacts.

(** ** extractIdentAfter *)

Section ExtractIdentAfter.
Import GoString GoStringFacts.

Lemma drop_all n s : (String.length s <= n)%nat -> drop n s = "".
Proof.
  revert s. induction n as [|n IH]; intros [|c s] H; simpl in *; try done; try lia.
  apply IH. lia.
Qed.

Lemma length_take n s : (n <= String.length s)%nat -> String.length (take n s) = n.
Proof.
  revert s. induction n as [|n IH]; intros [|c s] H; simpl in *; try done; try lia.
  rewrite IH; lia.
Qed.

Lemma occurs_at_HasPrefix keyword s i :
  occurs_at keyword s i <->
  HasPrefix (drop i s) keyword = true /\ (i <= String.length s)%nat.
Proof.
  split.
  - intros (before & after & -> & <-). split.
    + rewrite drop_app_length. apply HasPrefix_app.
    + rewrite length_app. lia.
  - intros [H Hi]. exists (take i s), (drop (String.length keyword) (drop i s)).
    split; [|by apply length_take].
    rewrite <- (HasPrefix_inv _ _ H). symmetry. apply take_drop.
Qed.

Lemma occurs_at_bound keyword s i :
  occurs_at keyword s i -> (i + String.length keyword <= String.length s)%nat.
Proof.
  intros (before & after & -> & <-). rewrite !length_app. lia.
Qed.

Lemma not_occurs_HasPrefix keyword s j :
  (j <= String.length s)%nat -> ~ occurs_at keyword s j ->
  HasPrefix (drop j s) keyword = false.
Proof.
  intros Hj Hno. destruct (HasPrefix (drop j s) keyword) eqn:E; [|done].
  destruct Hno. apply occurs_at_HasPrefix. done.
Qed.

Lemma Index_first keyword s i :
  first_occurrence keyword s i -> Index s keyword = Z.of_nat i.
Proof.
  intros [Hat Hbefore]. unfold Index.
  pose proof (occurs_at_bound _ _ _ Hat) as Hb.
  apply occurs_at_HasPrefix in Hat as [Hat Hi].
  rewrite (Index_at_first 0 s keyword i); [lia| |done].
  intros j Hj. apply not_occurs_HasPrefix; [lia|]. by apply Hbefore.
Qed.

Lemma Index_absent keyword s : absent keyword s -> Index s keyword = -1.
Proof.
  intros Hno. apply Index_at_absent. intros j.
  destruct (decide (j <= String.length s)%nat) as [Hj|Hj].
  - by apply not_occurs_HasPrefix.
  - rewrite drop_all by lia.
    rewrite <- (drop_all (String.length s) s) by lia.
    by apply not_occurs_HasPrefix.
Qed.

Lemma Index_cases keyword s :
  (Index s keyword = -1 /\ absent keyword s) \/
  (exists i, Index s keyword = Z.of_nat i /\ first_occurrence keyword s i).
Proof.
  destruct (decide (Index s keyword = -1)) as [E|E].
  - left. split; [done|]. intros i Hat.
    apply occurs_at_HasPrefix in Hat as [Hat _].
    pose proof (Index_at_absent_inv 0 s keyword E ltac:(lia) i). congruence.
  - right. destruct (Index_at_found 0 s keyword E ltac:(lia)) as (i & Hi & Hat & Hbefore).
    assert (i <= String.length s)%nat as Hle.
    { destruct (decide (i <= String.length s)%nat) as [|Hgt]; [done|].
      pose proof (Hbefore (String.length s) ltac:(lia)) as Hf.
      rewrite drop_all in Hat by lia. rewrite drop_all in Hf by lia. congruence. }
    exists i. split; [unfold Index; lia|]. split.
    + by apply occurs_at_HasPrefix.
    + intros j Hj Hoc. apply occurs_at_HasPrefix in Hoc as [Hoc _].
      rewrite (Hbefore j Hj) in Hoc. done.
Qed.

(** What the function does once the first occurrence is known: it slices
    the rest of the input at the offset [IndexRune] reports. *)
Lemma extractIdentAfter_first sql keyword i :
  first_occurrence keyword sql i ->
  extractIdentAfter sql keyword =
    let remain := drop (i + String.length keyword) sql in
    slice_to remain (IndexRune remain " "%char).
Proof.
  intros Hfirst. pose proof (occurs_at_bound _ _ _ (proj1 Hfirst)) as Hb.
  unfold extractIdentAfter. rewrite (Index_first _ _ _ Hfirst).
  replace (Z.of_nat i =? -1) with false by (symmetry; apply Z.eqb_neq; lia).
  simpl negb. cbv iota. unfold slice_from, len.
  replace (0 <=? Z.of_nat i + Z.of_nat (String.length keyword)) with true
    by (symmetry; apply Z.leb_le; lia).
  replace (Z.of_nat i + Z.of_nat (String.length keyword) <=? Z.of_nat (String.length sql))
    with true by (symmetry; apply Z.leb_le; lia).
  simpl. f_equal; repeat f_equal; lia.
Qed.

Lemma extractIdentAfter_token sql keyword i tok rest :
  first_occurrence keyword sql i ->
  drop (i + String.length keyword) sql = tok +:+ " " +:+ rest ->
  has_byte " " tok = false ->
  extractIdentAfter sql keyword = Val tok.
Proof.
  intros Hfirst Hremain Htok.
  rewrite (extractIdentAfter_first _ _ _ Hfirst). cbv zeta. rewrite Hremain.
  unfold IndexRune.
  change (tok +:+ " " +:+ rest) with (tok +:+ String " " rest).
  rewrite IndexRune_at_token by done.
  unfold slice_to. rewrite len_app.
  replace (0 <=? 0 + len tok) with true
    by (symmetry; apply Z.leb_le; pose proof (len_nonneg tok); lia).
  replace (0 + len tok <=? len tok + len (String " " rest)) with true
    by (symmetry; apply Z.leb_le; pose proof (len_nonneg (String " " rest)); lia).
  simpl. f_equal. unfold len. rewrite Z.add_0_l, Nat2Z.id. apply take_app_length.
Qed.

Lemma extractIdentAfter_no_space sql keyword i :
  first_occurrence keyword sql i ->
  has_byte " " (drop (i + String.length keyword) sql) = false ->
  IndexRune (drop (i + String.length keyword) sql) " " = -1 /\
  extractIdentAfter sql keyword = Panic SliceBoundsOutOfRange.
Proof.
  intros Hfirst Hno.
  assert (IndexRune (drop (i + String.length keyword) sql) " " = -1) as E
    by (by apply IndexRune_at_absent).
  split; [done|].
  rewrite (extractIdentAfter_first _ _ _ Hfirst). cbv zeta. by rewrite E.
Qed.

End ExtractIdentAfter.

Section ExtractIdentAfterClaims.
Import GoString GoStringFacts.

Lemma has_byte_split c s :
  has_byte c s = true ->
  exists tok rest, s = tok +:+ String c rest /\ has_byte c tok = false.
Proof.
  induction s as [|a s IH]; intros H; [done|].
  simpl in H. destruct (Ascii.eqb a c) eqn:E.
  - apply Ascii.eqb_eq in E as ->. by exists "", s.
  - destruct (IH H) as (tok & rest & -> & Htok).
    exists (String a tok), rest. split; [done|]. simpl. by rewrite E.
Qed.

(** Checking by evaluation that [keyword] does not occur before offset [n] *)
Lemma no_occurrence_before keyword s n :
  forallb (fun j => negb (HasPrefix (drop j s) keyword)) (seq 0 n) = true ->
  forall j, (j < n)%nat -> ~ occurs_at keyword s j.
Proof.
  intros Hall j Hj Hoc. apply occurs_at_HasPrefix in Hoc as [Hoc _].
  rewrite forallb_forall in Hall.
  specialize (Hall j). rewrite Hoc in Hall.
  discriminate Hall. apply in_seq. lia.
Qed.

Lemma first_occurrence_unique keyword s i j :
  first_occurrence keyword s i -> first_occurrence keyword s j -> i = j.
Proof.
  intros [Hi Hbi] [Hj Hbj].
  destruct (Nat.lt_trichotomy i j) as [H|[H|H]]; [|done|].
  - destruct (Hbj i H Hi).
  - destruct (Hbi j H Hj).
Qed.

(** C4, as amended.  The function panics, slicing with the -1 that
    [IndexRune] reports, exactly on the inputs in which the keyword occurs
    and no space follows the end of its first occurrence; and it returns
    the empty string exactly when the keyword is absent or its first
    occurrence is immediately followed by a space. *)
Theorem extractIdentAfter_partial (sql keyword : string) :
  (extractIdentAfter sql keyword = Panic SliceBoundsOutOfRange <->
     exists i, first_occurrence keyword sql i /\
       has_byte " " (drop (i + String.length keyword) sql) = false /\
       IndexRune (drop (i + String.length keyword) sql) " " = -1) /\
  (returns (extractIdentAfter sql keyword) = false <->
     extractIdentAfter sql keyword = Panic SliceBoundsOutOfRange) /\
  (extractIdentAfter sql keyword = Val "" <->
     absent keyword sql \/
     exists i, first_occurrence keyword sql i /\
       HasPrefix (drop (i + String.length keyword) sql) " " = true).
Proof.
  destruct (Index_cases keyword sql) as [[Eidx Habs]|(i & Eidx & Hfirst)].
  - (* the keyword is absent *)
    assert (extractIdentAfter sql keyword = Val "") as E.
    { unfold extractIdentAfter. by rewrite Eidx. }
    rewrite E. split; [|split].
    + split; [done|]. intros (j & [Hoc _] & _). destruct (Habs j Hoc).
    + simpl. split; done.
    + split; [by left|done].
  - destruct (has_byte " " (drop (i + String.length keyword) sql)) eqn:Hsp.
    + (* a space follows: the token before it is returned *)
      destruct (has_byte_split _ _ Hsp) as (tok & rest & Hremain & Htok).
      assert (extractIdentAfter sql keyword = Val tok) as E
        by (by apply (extractIdentAfter_token sql keyword i tok rest)).
      rewrite E. split; [|split].
      * split; [done|]. intros (j & Hj & Hno & _).
        rewrite <- (first_occurrence_unique _ _ _ _ Hfirst Hj) in Hno. congruence.
      * simpl. split; done.
      * split.
        -- intros [= ->]. right. exists i. split; [done|]. by rewrite Hremain.
        -- intros [Habs|(j & Hj & Hpre)].
           ++ destruct (Habs i (proj1 Hfirst)).
           ++ rewrite <- (first_occurrence_unique _ _ _ _ Hfirst Hj) in Hpre.
              rewrite Hremain in Hpre. destruct tok as [|a tok]; [done|].
              rewrite app_cons in Hpre. simpl in Hpre, Htok.
              apply andb_true_iff in Hpre as [Ha _].
              apply orb_false_iff in Htok as [Ha' _]. congruence.
    + (* no space follows: the slice panics *)
      destruct (extractIdentAfter_no_space sql keyword i Hfirst Hsp) as [Erune E].
      rewrite E. split; [|split].
      * split; [|done]. intros _. by exists i.
      * simpl. split; done.
      * split; [done|]. intros [Habs|(j & Hj & Hpre)].
        -- destruct (Habs i (proj1 Hfirst)).
        -- rewrite <- (first_occurrence_unique _ _ _ _ Hfirst Hj) in Hpre.
           destruct (drop (i + String.length keyword) sql) as [|a r]; [done|].
           simpl in Hpre, Hsp. apply andb_true_iff in Hpre as [Ha _].
           apply orb_false_iff in Hsp as [Ha' _]. congruence.
Qed.

End ExtractIdentAfterClaims.

Section ExtractIdentAfterExamples.
Import GoString GoStringFacts.

(** C4, as stated, fails twice.  The empty string also comes back when
    the keyword is there and a space follows it at once; and a later
    occurrence with no space after it does not make the function panic,
    only the first occurrence counts. *)
Lemma extractIdentAfter_empty_though_present :
  (extractIdentAfter "COLLATE  x" "COLLATE " = Val "" /\
   ~ absent "COLLATE " "COLLATE  x") /\
  (occurs_at "COLLATE " "COLLATE COLLATE " 8 /\
   has_byte " " (drop (8 + String.length "COLLATE ") "COLLATE COLLATE ") = false /\
   extractIdentAfter "COLLATE COLLATE " "COLLATE " = Val "COLLATE").
Proof.
  split; [split|split; [|split]].
  - reflexivity.
  - intros H. apply (H 0%nat). by exists "", " x".
  - by exists "COLLATE ", "".
  - reflexivity.
  - reflexivity.
Qed.

(** An input for the panic: the statement ends right after the collation. *)
Lemma extractIdentAfter_partial_witness :
  extractIdentAfter "CREATE DATABASE `app` COLLATE utf8mb4_bin" "COLLATE "
    = Panic SliceBoundsOutOfRange.
Proof.
  apply (proj1 (extractIdentAfter_partial _ _)).
  exists 22%nat. split; [split|split; reflexivity].
  - by exists "CREATE DATABASE `app` ", "utf8mb4_bin".
  - by apply no_occurrence_before.
Defined.

(** C3, as stated, fails: the database called [COLLATE x] has a creation
    statement that contains the clause, and the first [COLLATE ] in it is
    the one of the name. *)
Lemma extractIdentAfter_keyword_in_name :
  let createSQL :=
    "CREATE DATABASE `COLLATE x` /*!40100 DEFAULT CHARACTER SET utf8mb4 COLLATE utf8mb4_unicode_ci */" in
  contains createSQL "CHARACTER SET utf8mb4 COLLATE utf8mb4_unicode_ci" /\
  extractIdentAfter createSQL defaultCollateKey = Val "x`" /\
  extractIdentAfter createSQL defaultCollateKey <> Val "utf8mb4_unicode_ci".
Proof.
  split; [|split].
  - exists 45%nat. by exists "CREATE DATABASE `COLLATE x` /*!40100 DEFAULT ", " */".
  - reflexivity.
  - discriminate.
Qed.

(** C3, as amended.  When the clause is followed by a space and neither
    keyword occurs before the clause, the two extractions yield the
    character set and the collation of the clause. *)
Theorem extractIdentAfter_utf8mb4 (before after : string) :
  let createSQL :=
    before +:+ "CHARACTER SET utf8mb4 COLLATE utf8mb4_unicode_ci" +:+ " " +:+ after in
  (forall j, (j < String.length before)%nat -> ~ occurs_at defCharSetKey createSQL j) ->
  (forall j, (j < String.length before)%nat -> ~ occurs_at defaultCollateKey createSQL j) ->
  extractIdentAfter createSQL defCharSetKey = Val "utf8mb4" /\
  extractIdentAfter createSQL defaultCollateKey = Val "utf8mb4_unicode_ci".
Proof.
  intros createSQL Hcs Hcol. split.
  - apply (extractIdentAfter_token createSQL defCharSetKey (String.length before)
             "utf8mb4" ("COLLATE utf8mb4_unicode_ci " +:+ after)).
    + split; [|done].
      by exists before, ("utf8mb4 COLLATE utf8mb4_unicode_ci " +:+ after).
    + unfold createSQL. by rewrite drop_app_plus.
    + reflexivity.
  - apply (extractIdentAfter_token createSQL defaultCollateKey (String.length before + 22)
             "utf8mb4_unicode_ci" after).
    + split.
      * exists (before +:+ "CHARACTER SET utf8mb4 "), ("utf8mb4_unicode_ci " +:+ after).
        split; [|by rewrite length_app].
        unfold createSQL. by rewrite app_assoc.
      * intros j Hj Hoc.
        destruct (decide (j < String.length before)%nat) as [Hlt|Hge];
          [by apply (Hcol j)|].
        apply occurs_at_HasPrefix in Hoc as [Hoc _].
        replace j with (String.length before + (j - String.length before))%nat in Hoc by lia.
        unfold createSQL in Hoc. rewrite drop_app_plus in Hoc.
        assert (j - String.length before < 22)%nat as Hk by lia.
        revert Hk Hoc. generalize (j - String.length before)%nat as k. intros k Hk Hoc.
        do 22 (destruct k as [|k]; [discriminate Hoc|]). lia.
    + unfold createSQL. rewrite <- Nat.add_assoc. by rewrite drop_app_plus.
    + reflexivity.
Qed.

(** The output of MySQL 5.7 for a database [app] *)
Lemma extractIdentAfter_utf8mb4_witness :
  let createSQL :=
    "CREATE DATABASE `app` /*!40100 DEFAULT CHARACTER SET utf8mb4 COLLATE utf8mb4_unicode_ci */" in
  extractIdentAfter createSQL defCharSetKey = Val "utf8mb4" /\
  extractIdentAfter createSQL defaultCollateKey = Val "utf8mb4_unicode_ci".
Proof.
  apply (extractIdentAfter_utf8mb4 "CREATE DATABASE `app` /*!40100 DEFAULT " "*/").
  - by apply no_occurrence_before.
  - by apply no_occurrence_before.
Defined.

End ExtractIdentAfterExamples.


(** ** quoteIdentifier and databaseSQLCMD *)

Section StatementBuilder.
Import GoString GoStringFacts.

Lemma identQuoteReplacer_table c :
  identQuoteReplacer c = if Ascii.eqb c backtick then Some "``" else None.
Proof.
  unfold identQuoteReplacer, NewReplacer. cbn [List.find fst snd].
  rewrite (Ascii.eqb_sym backtick c).
  destruct (Ascii.eqb c backtick); reflexivity.
Qed.

Lemma Replace_identQuoteReplacer s :
  Replace identQuoteReplacer s = double_backticks s.
Proof.
  induction s as [|c s IH]; [reflexivity|].
  cbn [Replace double_backticks].
  rewrite identQuoteReplacer_table, IH.
  destruct (Ascii.eqb c backtick); reflexivity.
Qed.

Lemma quoteIdentifier_doubles s :
  quoteIdentifier s = "`" +:+ double_backticks s +:+ "`".
Proof. unfold quoteIdentifier. by rewrite Replace_identQuoteReplacer. Qed.

(** Doubling loses nothing: the identifier can be read back. *)
Lemma undouble_double_backticks s :
  undouble_backticks (double_backticks s) = Some s.
Proof.
  induction s as [|c s IH]; [reflexivity|].
  cbn [double_backticks]. destruct (Ascii.eqb c backtick) eqn:E.
  - apply Ascii.eqb_eq in E as ->.
    cbn [undouble_backticks]. rewrite Ascii.eqb_refl, IH. reflexivity.
  - cbn [undouble_backticks]. rewrite E, IH. reflexivity.
Qed.

Lemma quoted_clause_eq key ident :
  (if negb (String.eqb ident "") then key +:+ quoteIdentifier ident else "")
  = quoted_clause key ident.
Proof.
  destruct ident as [|c ident]; [reflexivity|].
  simpl. by rewrite quoteIdentifier_doubles.
Qed.

Lemma databaseSQLCMD_verb verb d :
  databaseSQLCMD verb d = (fun rest => verb +:+ rest) <$> databaseSQLCMD "" d.
Proof.
  unfold databaseSQLCMD.
  destruct (assert_string (Get d "name")) as [name|p]; [|reflexivity].
  destruct (assert_string (Get d "default_character_set")) as [cs|p]; [|reflexivity].
  destruct (assert_string (Get d "default_collation")) as [col|p]; [|reflexivity].
  reflexivity.
Qed.

(** C2.  Whenever the three attributes can be read, the statement is the
    verb, [DATABASE], the name between backticks with every backtick of
    the name doubled, and the character set and collation clauses, each
    identifier quoted the same way (a clause is left out, not its
    separating space, when its identifier is empty). *)
Theorem databaseSQLCMD_quotes (verb : string) (d : ResourceData)
    (name charset collation : string) :
  Get d "name" = VString name ->
  Get d "default_character_set" = VString charset ->
  Get d "default_collation" = VString collation ->
  databaseSQLCMD verb d =
    Val (verb +:+ " DATABASE " +:+ "`" +:+ double_backticks name +:+ "`" +:+ " "
           +:+ quoted_clause defCharSetKey charset +:+ " "
           +:+ quoted_clause defaultCollateKey collation) /\
  quoteIdentifier name = "`" +:+ double_backticks name +:+ "`" /\
  undouble_backticks (double_backticks name) = Some name.
Proof.
  intros Hname Hcs Hcol. split; [|split].
  - unfold databaseSQLCMD. rewrite Hname, Hcs, Hcol. simpl.
    rewrite !quoted_clause_eq, quoteIdentifier_doubles.
    by rewrite !app_assoc.
  - apply quoteIdentifier_doubles.
  - apply undouble_double_backticks.
Qed.

Lemma databaseSQLCMD_quotes_witness :
  databaseSQLCMD "CREATE"
    (database_data "default_character_set" "a`b" "utf8mb4" "utf8mb4_unicode_ci")
  = Val "CREATE DATABASE `a``b` CHARACTER SET `utf8mb4` COLLATE `utf8mb4_unicode_ci`".
Proof.
  apply (databaseSQLCMD_quotes "CREATE"
           (database_data "default_character_set" "a`b" "utf8mb4" "utf8mb4_unicode_ci")
           "a`b" "utf8mb4" "utf8mb4_unicode_ci"); reflexivity.
Defined.

(** C9.  The statement of the update is the statement of Create with
    [ALTER] where Create has [CREATE]: the rest is the same text, and the
    two fail together when an attribute cannot be read. *)
Theorem UpdateDb_statement_reuses_builder (d : ResourceData) :
  (exists rest,
     databaseSQLCMD "CREATE" d = Val ("CREATE" +:+ rest) /\
     UpdateDb_statement d = Val ("ALTER" +:+ rest)) \/
  (exists p,
     databaseSQLCMD "CREATE" d = Panic p /\
     UpdateDb_statement d = Panic p).
Proof.
  unfold UpdateDb_statement.
  rewrite (databaseSQLCMD_verb "CREATE"), (databaseSQLCMD_verb "ALTER").
  destruct (databaseSQLCMD "" d) as [rest|p]; [left|right]; eauto.
Qed.

Example UpdateDb_statement_utf8mb4 :
  UpdateDb_statement
    (database_data "default_character_set" "app" "utf8mb4" "utf8mb4_unicode_ci")
  = Val "ALTER DATABASE `app` CHARACTER SET `utf8mb4` COLLATE `utf8mb4_unicode_ci`".
Proof. reflexivity. Qed.

End StatementBuilder.

(** ** ReadDb and CreateDb *)

Section Callbacks.

Variable env : Env.

Lemma wrapped_error_differs prefix e :
  prefix <> "" -> ErrorString (prefix +:+ Error e) <> e.
Proof.
  intros Hne Heq. destruct e as [n m| |s0|k m]; try discriminate Heq.
  injection Heq as Heq. simpl in Heq.
  apply (f_equal String.length) in Heq.
  rewrite GoStringFacts.length_app in Heq.
  destruct prefix; [done|]. simpl in Heq. lia.
Qed.

(** The first thing [ReadDb] does is one SHOW CREATE DATABASE query; when
    it fails with anything but MySQL error 1049, a new error is returned
    whose text is that of the failure after a fixed prefix. *)
Lemma ReadDb_query_error d meta db (w : World env) e s' :
  Db meta = Some db ->
  db_QueryRow env db (showCreateDatabase (Id d)) [] (srv w) = (inl e, s') ->
  (forall msg, e <> MySQLError unknownDatabaseErr msg) ->
  ReadDb env d meta w =
    (Val (Some (ErrorString ("Error during show create database: " +:+ Error e)), d),
     after_call env w (CallQueryRow db (showCreateDatabase (Id d)) []) (Some e) s').
Proof.
  intros Hdb Hq Hne. unfold showCreateDatabase in Hq.
  unfold ReadDb, mbind, M_bind, bind, QueryRow, call. rewrite Hdb, Hq.
  cbn [Row_Scan].
  destruct e as [n m| | |]; try reflexivity.
  destruct (n =? unknownDatabaseErr) eqn:E; [|reflexivity].
  apply Z.eqb_eq in E. subst n. destruct (Hne m). reflexivity.
Qed.

Lemma ReadDb_query_1049 d meta db (w : World env) msg s' :
  Db meta = Some db ->
  db_QueryRow env db (showCreateDatabase (Id d)) [] (srv w)
    = (inl (MySQLError unknownDatabaseErr msg), s') ->
  ReadDb env d meta w =
    (Val (None, SetId d ""),
     after_call env w (CallQueryRow db (showCreateDatabase (Id d)) [])
       (Some (MySQLError unknownDatabaseErr msg)) s').
Proof.
  intros Hdb Hq. unfold showCreateDatabase in Hq.
  unfold ReadDb, mbind, M_bind, bind, QueryRow, call. rewrite Hdb, Hq.
  reflexivity.
Qed.

(** C5.  When the SHOW CREATE DATABASE query fails with MySQL error 1049,
    [ReadDb] returns nil and leaves the resource with the empty ID; when
    it fails with any other error, [ReadDb] returns an error and leaves
    the resource, its ID included, as it was. *)
Theorem ReadDb_unknown_database (d : ResourceData) (meta : MySQLConfiguration)
    (db : DB) (w : World env) (e : error) (s' : Srv env) :
  Db meta = Some db ->
  db_QueryRow env db (showCreateDatabase (Id d)) [] (srv w) = (inl e, s') ->
  (forall msg, e = MySQLError 1049 msg ->
     exists d', fst (ReadDb env d meta w) = Val (None, d') /\ Id d' = "") /\
  ((forall msg, e <> MySQLError 1049 msg) ->
     exists err, fst (ReadDb env d meta w) = Val (Some err, d)).
Proof.
  intros Hdb Hq. split.
  - intros msg ->. exists (SetId d "").
    by rewrite (ReadDb_query_1049 d meta db w msg s').
  - intros Hne. eexists. by rewrite (ReadDb_query_error d meta db w e s').
Qed.

(** C6, as amended.  Neither callback retries: the failing statement is
    the only call made.  [CreateDb] returns the error of Exec itself;
    [ReadDb] returns a new error, whose text is
    [Error during show create database: ] followed by the text of the
    query's error, and which is never that error. *)
Theorem sql_errors_surface_once (d : ResourceData) (meta : MySQLConfiguration)
    (db : DB) (w : World env) (e : error) (s' : Srv env) :
  Db meta = Some db ->
  (forall stmt,
     databaseSQLCMD "CREATE" d = Val stmt ->
     db_Exec env db stmt (srv w) = (Some e, s') ->
     CreateDb env d meta w =
       (Val (Some e, d), after_call env w (CallExec db stmt) (Some e) s')) /\
  (db_QueryRow env db (showCreateDatabase (Id d)) [] (srv w) = (inl e, s') ->
   (forall msg, e <> MySQLError unknownDatabaseErr msg) ->
   let wrapped := ErrorString ("Error during show create database: " +:+ Error e) in
   ReadDb env d meta w =
     (Val (Some wrapped, d),
      after_call env w (CallQueryRow db (showCreateDatabase (Id d)) []) (Some e) s') /\
   wrapped <> e).
Proof.
  intros Hdb. split.
  - intros stmt Hstmt Hexec.
    unfold CreateDb, mbind, M_bind, bind, lift, Exec, call.
    rewrite Hstmt, Hdb, Hexec. reflexivity.
  - intros Hq Hne wrapped. split.
    + by apply ReadDb_query_error.
    + by apply wrapped_error_differs.
Qed.

End Callbacks.

Section CallbackRuns.

(** A read of a database that is gone: the ID is cleared, nil is returned. *)
Lemma ReadDb_unknown_database_witness :
  exists d', fst (ReadDb (answering (inl (MySQLError 1049 "Unknown database 'app'")))
                    (SetId utf8mb4_database "app") sample_meta
                    (start_world (answering (inl (MySQLError 1049 "Unknown database 'app'"))) tt))
             = Val (None, d') /\ Id d' = "".
Proof.
  apply (proj1 (ReadDb_unknown_database
                  (answering (inl (MySQLError 1049 "Unknown database 'app'")))
                  (SetId utf8mb4_database "app") sample_meta sample_db
                  (start_world (answering (inl (MySQLError 1049 "Unknown database 'app'"))) tt)
                  (MySQLError 1049 "Unknown database 'app'") tt
                  eq_refl eq_refl) "Unknown database 'app'").
  reflexivity.
Defined.

(** C6, as stated, fails for [ReadDb]: an access-denied error of the
    server comes back as another error value, with a longer text. *)
Lemma ReadDb_wraps_query_error :
  let denied := MySQLError 1045 "Access denied for user 'tf'@'%'" in
  fst (ReadDb (answering (inl denied)) (SetId utf8mb4_database "app") sample_meta
         (start_world (answering (inl denied)) tt))
  = Val (Some (ErrorString
           "Error during show create database: Error 1045: Access denied for user 'tf'@'%'"),
         SetId utf8mb4_database "app") /\
  fst (ReadDb (answering (inl denied)) (SetId utf8mb4_database "app") sample_meta
         (start_world (answering (inl denied)) tt))
  <> Val (Some denied, SetId utf8mb4_database "app").
Proof.
  split; [vm_compute; reflexivity|].
  vm_compute. discriminate.
Qed.

Lemma sql_errors_surface_once_witness :
  let denied := MySQLError 1045 "Access denied for user 'tf'@'%'" in
  let d := database_data "default_character_set" "app" "utf8mb4" "utf8mb4_unicode_ci" in
  let env := fixed_env None None (fun _ => Some denied) (fun _ _ => inl denied)
               (inr 50730) (inr "5.7.30-log") Millisecond in
  fst (CreateDb env d sample_meta (start_world env tt)) = Val (Some denied, d) /\
  List.length (trace (snd (CreateDb env d sample_meta (start_world env tt)))) = 1%nat /\
  List.length (trace (snd (ReadDb env d sample_meta (start_world env tt)))) = 1%nat.
Proof.
  intros denied d env.
  destruct (sql_errors_surface_once env d sample_meta sample_db (start_world env tt)
              denied tt eq_refl) as [Hcreate Hread].
  rewrite (Hcreate _ eq_refl eq_refl).
  destruct (Hread eq_refl ltac:(discriminate)) as [-> _].
  repeat split.
Defined.

End CallbackRuns.

(** ** ReadDb: the default collation of a character set *)

Section DefaultCollation.

Variable env : Env.

(** C8.  When the creation statement names a character set and no
    collation, and the server version is known, [ReadDb] looks the default
    collation up; when the lookup has no row, it fails with
    [Charset <cs> has no default collation], and when it returns nil the
    lookup had a row, whose first column is stored as the collation. *)
Theorem ReadDb_default_collation (d : ResourceData) (meta : MySQLConfiguration)
    (db : DB) (w : World env) (dbname createSQL charset : string)
    (cv : Version env) (sv : string) (s1 s2 s3 : Srv env) :
  Db meta = Some db ->
  db_QueryRow env db (showCreateDatabase (Id d)) [] (srv w)
    = (inr (Some [dbname; createSQL]), s1) ->
  extractIdentAfter createSQL defCharSetKey = Val charset ->
  charset <> "" ->
  extractIdentAfter createSQL defaultCollateKey = Val "" ->
  mySQLServerVersion env db s1 = (inr cv, s2) ->
  mySQLServerVersionString env db s2 = (inr sv, s3) ->
  let lookup := fst (db_QueryRow env db showCollation [charset] s3) in
  (lookup = inr None ->
     fst (ReadDb env d meta w) =
       Val (Some (ErrorString ("Charset " +:+ charset +:+ " has no default collation")), d)) /\
  (forall d', fst (ReadDb env d meta w) = Val (None, d') ->
     exists collation rest,
       lookup = inr (Some (collation :: rest)) /\
       d' = snd (ReadDb_store d (Id d) charset collation)).
Proof.
  intros Hdb Hq Hcs Hne Hcol Hv Hvs lookup.
  assert (String.eqb charset "" = false) as Hne' by (by apply String.eqb_neq).
  unfold showCreateDatabase in Hq.
  unfold ReadDb, mbind, M_bind, bind, lift, mret, M_ret, ret, QueryRow, serverVersion,
    serverVersionString, call.
  rewrite Hdb, Hq.
  change (Row_Scan (inr (Some [dbname; createSQL])) 2)
    with (@inr error _ [dbname; createSQL]).
  cbn [nth]. rewrite Hcs, Hcol, Hne'. cbn [String.eqb andb negb srv].
  rewrite Hv. cbn [srv]. rewrite Hvs. cbn [srv].
  subst lookup.
  destruct (db_QueryRow env db showCollation [charset] s3) as [row s4].
  cbn [fst].
  set (ndest := if _ : bool then 7%nat else 6%nat).
  split.
  - intros ->. reflexivity.
  - intros d'. destruct row as [e|[cols|]]; cbn [Row_Scan].
    + destruct (decide (e = ErrNoRows)); discriminate.
    + destruct (decide (length cols = ndest)) as [Hlen|Hlen].
      * cbn [fst]. intros [= <-].
        destruct cols as [|collation rest].
        { exfalso. subst ndest. simpl in Hlen. by destruct (_ && _). }
        by exists collation, rest.
      * destruct (decide (_ = ErrNoRows)); discriminate.
    + cbn. discriminate.
Qed.

(** [Set] under one key leaves the other attributes alone. *)
Lemma Set_other d key v key' :
  key <> key' -> attrs (Set_ d key v) !! key' = attrs d !! key'.
Proof.
  intros Hne. unfold Set_. destruct (schema d !! key) as [sch|]; [|done].
  destruct (has_type v (Type_ sch)); [|done]. cbn [attrs]. by apply lookup_insert_ne.
Qed.

Lemma ReadDb_store_keeps_default_charset d name charset collation :
  attrs (snd (ReadDb_store d name charset collation)) !! "default_charset"
  = attrs d !! "default_charset".
Proof.
  unfold ReadDb_store. cbn [snd]. by rewrite !Set_other.
Qed.

(** Whatever the server answers, [ReadDb] never writes the attribute the
    schema declares for the character set. *)
Lemma ReadDb_keeps_default_charset d meta (w : World env) r d' w' :
  ReadDb env d meta w = (Val (r, d'), w') ->
  attrs d' !! "default_charset" = attrs d !! "default_charset".
Proof.
  unfold ReadDb, mbind, M_bind, bind, lift, mret, M_ret, ret, QueryRow, serverVersion,
    serverVersionString, call, panic_with, lift.
  intros H.
  repeat (case_match; simplify_eq; try done); try apply ReadDb_store_keeps_default_charset.
Qed.

(** C1 fails on the code.  For the resource of the round trip, with the
    character set and the collation under the keys of the schema, and
    whatever the server, [CreateDb] panics while it builds the statement,
    before anything is sent: [databaseSQLCMD] reads [default_character_set],
    a key the schema of [ResourceDB] does not have. *)
Theorem CreateDb_utf8mb4_panics (meta : MySQLConfiguration) (w : World env) :
  Get utf8mb4_database "default_charset" = VString "utf8mb4" /\
  Get utf8mb4_database "default_collation" = VString "utf8mb4_unicode_ci" /\
  schema utf8mb4_database = Schema_ env (ResourceDB env) /\
  Get utf8mb4_database "default_character_set" = VNil /\
  CreateDb env utf8mb4_database meta w = (Panic NilInterfaceConversion, w).
Proof. repeat split. Qed.

(** C10.  The validation of [endpoint] lets the empty string through (it
    objects to values that are not strings, and to nothing else), and
    [providerConfigure] then panics on the first byte of the endpoint. *)
Theorem providerConfigure_empty_endpoint (d : ResourceData) (w : World env) :
  Get d "endpoint" = VString "" ->
  endpoint_ValidateFunc (Get d "endpoint") "endpoint" = ([], []) /\
  (forall v k, snd (endpoint_ValidateFunc v k) = [] <-> exists s, v = VString s) /\
  providerConfigure env d w = (Panic IndexOutOfRange, w).
Proof.
  intros Hendpoint. split; [|split].
  - by rewrite Hendpoint.
  - intros v k. destruct v; simpl; split; try done; eauto.
    all: by intros [s0 ?].
  - unfold providerConfigure, mbind, M_bind, bind, lift. by rewrite Hendpoint.
Qed.

End DefaultCollation.

Section MoreRuns.

Lemma ReadDb_default_collation_witness :
  fst (ReadDb no_default_collation (SetId utf8mb4_database "app") sample_meta
         (start_world no_default_collation tt))
  = Val (Some (ErrorString "Charset klingon has no default collation"),
         SetId utf8mb4_database "app").
Proof.
  apply (proj1 (ReadDb_default_collation no_default_collation
                  (SetId utf8mb4_database "app") sample_meta sample_db
                  (start_world no_default_collation tt) "app"
                  "CREATE DATABASE `app` /*!40100 DEFAULT CHARACTER SET klingon */"
                  "klingon" 50730 "5.7.30-log" tt tt tt
                  eq_refl eq_refl eq_refl ltac:(discriminate) eq_refl eq_refl eq_refl)).
  reflexivity.
Defined.

(** A read that finds [utf8mb4] on the server stores the collation and
    leaves [default_charset] at what it was. *)
Example ReadDb_leaves_default_charset :
  let env := answering (inr (Some ["app";
    "CREATE DATABASE `app` /*!40100 DEFAULT CHARACTER SET utf8mb4 COLLATE utf8mb4_unicode_ci */"])) in
  let d := SetId (NewResourceData ResourceDB_Schema [("name", VString "app")]) "app" in
  exists d',
    fst (ReadDb env d sample_meta (start_world env tt)) = Val (None, d') /\
    Get d "default_charset" = VString "utf8" /\
    Get d' "default_charset" = VString "utf8" /\
    Get d' "default_collation" = VString "utf8mb4_unicode_ci".
Proof. eexists. repeat split. Qed.

Lemma providerConfigure_empty_endpoint_witness :
  endpoint_ValidateFunc (Get empty_endpoint "endpoint") "endpoint" = ([], []) /\
  fst (providerConfigure (answering (inr None)) empty_endpoint
         (start_world (answering (inr None)) tt)) = Panic IndexOutOfRange.
Proof.
  destruct (providerConfigure_empty_endpoint (answering (inr None)) empty_endpoint
              (start_world (answering (inr None)) tt) eq_refl) as (Hv & _ & ->).
  split; [exact Hv|reflexivity].
Defined.

End MoreRuns.

(** ** The connector *)

Section Connector.

Variable env : Env.

Lemma last_call_sleep log t d :
  last_call (log ++ [{| at_time := t; what := CallSleep d; failed := None |}]) = last_call log.
Proof. unfold last_call. rewrite List.filter_app. simpl. by rewrite app_nil_r. Qed.

Lemma last_call_snoc log e : is_sleep e = false -> last_call (log ++ [e]) = Some e.
Proof.
  intros H. unfold last_call. rewrite List.filter_app. simpl. rewrite H. simpl.
  apply last_snoc.
Qed.

(** One run of the function literal: the three ways it can end. *)
Lemma connect_once_cases dsn c (w : World env) :
  (exists e s',
     sql_Open env dsn (srv w) = (Some e, s') /\
     connect_once env dsn c w =
       (Val (Some (RetryableError e), None), after_call env w (CallOpen dsn) (Some e) s')) \/
  (exists e s' s'',
     sql_Open env dsn (srv w) = (None, s') /\
     db_Ping env (fresh_handle dsn) s' = (Some e, s'') /\
     connect_once env dsn c w =
       (Val (Some (RetryableError e), Some (fresh_handle dsn)),
        after_call env (after_call env w (CallOpen dsn) None s')
          (CallPing (fresh_handle dsn)) (Some e) s'')) \/
  (exists s' s'',
     sql_Open env dsn (srv w) = (None, s') /\
     db_Ping env (fresh_handle dsn) s' = (None, s'') /\
     connect_once env dsn c w =
       (Val (None, Some (fresh_handle dsn)),
        after_call env (after_call env w (CallOpen dsn) None s')
          (CallPing (fresh_handle dsn)) None s'')).
Proof.
  unfold connect_once, mbind, M_bind, bind, Ping, call, mret, M_ret, ret.
  destruct (sql_Open env dsn (srv w)) as [[e|] s'] eqn:Ho.
  - left. by exists e, s'.
  - cbn [srv]. destruct (db_Ping env _ s') as [[e|] s''] eqn:Hp.
    + right; left. exists e, s', s''. by rewrite Hp.
    + right; right. exists s', s''. by rewrite Hp.
Qed.

Lemma next_wait_min wait : MinTimeout <= next_wait wait.
Proof.
  unfold next_wait, MinTimeout, Second, Millisecond.
  destruct (wait * 2 <? 500 * 1000000) eqn:E1; [lia|].
  destruct (10 * 1000000000 <? wait * 2) eqn:E2; lia.
Qed.

Lemma not_open_in_list (mid : list Entry) :
  forallb (fun e => negb (is_open e)) mid = true ->
  forall e, e ∈ mid -> is_open e = true -> False.
Proof.
  intros Hall e Hin Ho. rewrite forallb_forall in Hall.
  apply list_elem_of_In in Hin. specialize (Hall e Hin). by rewrite Ho in Hall.
Qed.

(** A run that ends: the log is the first attempt and what followed it. *)
Lemma connect_outcome_end dsn deadline (w w' : World env) oe c' first mid last :
  trace w' = trace w ++ first :: mid ->
  what first = CallOpen dsn -> at_time first = clock w ->
  forallb (fun e => negb (is_open e)) mid = true ->
  last_call (trace w') = Some last ->
  (forall err, oe = Some err -> failed last = Some err) ->
  (oe = None -> is_Some c') ->
  connect_outcome env dsn deadline w (Val (oe, c'), w').
Proof.
  intros Htr Hwhat Hat Hmid Hlast Hfail Hsome.
  exists oe, c', w', first, mid. repeat split; try done.
  - intros e Hin Ho. destruct (not_open_in_list mid Hmid e Hin Ho).
  - intros err ->. exists last. split; [done|]. by apply Hfail.
Qed.

(** A run that goes on from [w2], where the first attempt and the wait
    after it have been logged and the timeout has not elapsed *)
Lemma connect_outcome_step dsn deadline (w w2 : World env) out first mid :
  connect_outcome env dsn deadline w2 out ->
  trace w2 = trace w ++ first :: mid ->
  what first = CallOpen dsn -> at_time first = clock w ->
  forallb (fun e => negb (is_open e)) mid = true ->
  clock w2 < deadline ->
  connect_outcome env dsn deadline w out.
Proof.
  intros (oe & c' & w' & first' & rest' & -> & Htr' & Hwhat' & Hat' & Hlater & Hlast & Hsome)
         Htr Hwhat Hat Hmid Hlt.
  exists oe, c', w', first, (mid ++ first' :: rest'). repeat split; try done.
  - rewrite Htr', Htr. by rewrite <- app_assoc.
  - intros e Hin Ho. apply elem_of_app in Hin as [Hin|Hin].
    + destruct (not_open_in_list mid Hmid e Hin Ho).
    + apply elem_of_cons in Hin as [->|Hin]; [lia|]. by apply Hlater.
Qed.

Lemma Retry_loop_connect dsn fuel deadline wait c (w : World env) :
  connect_outcome env dsn deadline w
    (Retry_loop env fuel deadline wait (connect_once env dsn) c w).
Proof.
  revert wait c w. induction fuel as [|fuel IH]; intros wait c w.
  all: destruct (connect_once_cases dsn c w)
         as [(e & s' & Ho & E)|[(e & s' & s'' & Ho & Hp & E)|(s' & s'' & Ho & Hp & E)]].
  all: cbn [Retry_loop]; unfold mbind, M_bind, bind at 1; rewrite E;
       cbn [Retryable RetryableError negb Err].
  all: unfold now, mbind, M_bind, bind, mret, M_ret, ret.
  all: change (sleep env ?d ?w) with (Val tt, after_sleep env w d).
  all: try match goal with |- context [?a <? ?b] => destruct (a <? b) eqn:Hlt end.
  all: try (eapply connect_outcome_step;
            [apply IH | cbn [trace after_sleep after_call]; rewrite <- !app_assoc; reflexivity
            | reflexivity | reflexivity | reflexivity
            | apply Z.ltb_lt in Hlt; pose proof (next_wait_min wait);
              unfold MinTimeout, Millisecond in *;
              cbn [clock after_sleep after_call] in *; lia ]).
  all: eapply connect_outcome_end;
         [ cbn [trace after_sleep after_call]; rewrite <- ?app_assoc; reflexivity
         | reflexivity | reflexivity | reflexivity
         | cbn [trace after_sleep after_call];
           rewrite ?last_call_sleep; apply last_call_snoc; reflexivity
         | cbn [failed]; congruence
         | try done; eauto ].
Qed.

Lemma connect_once_clock dsn c (w : World env) r w' :
  connect_once env dsn c w = (r, w') -> clock w <= clock w'.
Proof.
  destruct (connect_once_cases dsn c w)
    as [(e & s' & Ho & E)|[(e & s' & s'' & Ho & Hp & E)|(s' & s'' & Ho & Hp & E)]];
    rewrite E; intros [= <- <-]; cbn [clock after_call]; lia.
Qed.

Lemma Retry_loop_eq {C} fuel deadline wait (f : C -> M env (option RetryError * C)) c
    (w : World env) :
  Retry_loop env fuel deadline wait f c w =
    match f c w with
    | (Panic p, w1) => (Panic p, w1)
    | (Val (None, c'), w1) => (Val (None, c'), w1)
    | (Val (Some rerr, c'), w1) =>
        if negb (Retryable rerr) then (Val (Some (Err rerr), c'), w1)
        else if clock w1 + next_wait wait <? deadline then
          match fuel with
          | O => (Val (Some (Err rerr), c'), after_sleep env w1 (next_wait wait))
          | S fuel' =>
              Retry_loop env fuel' deadline (next_wait wait) f c'
                (after_sleep env w1 (next_wait wait))
          end
        else (Val (Some (Err rerr), c'), after_sleep env w1 (deadline - clock w1))
    end.
Proof.
  destruct fuel; cbn [Retry_loop]; unfold mbind, M_bind, bind at 1;
    destruct (f c w) as [[[[rerr|] c']|p] w1]; try reflexivity;
    destruct (negb (Retryable rerr)); try reflexivity;
    unfold now, bind at 1;
    destruct (clock w1 + next_wait wait <? deadline); reflexivity.
Qed.

Lemma Retry_loop_fuel dsn fuel deadline wait c (w : World env) :
  deadline - clock w <= Z.of_nat fuel * MinTimeout ->
  Retry_loop env (S fuel) deadline wait (connect_once env dsn) c w
  = Retry_loop env fuel deadline wait (connect_once env dsn) c w.
Proof.
  revert wait c w. induction fuel as [|fuel IH]; intros wait c w Hfuel.
  all: rewrite !(Retry_loop_eq _ deadline wait).
  all: destruct (connect_once env dsn c w) as [[[[rerr|] c']|p] w1] eqn:E; try reflexivity.
  all: apply connect_once_clock in E.
  all: destruct (negb (Retryable rerr)); [reflexivity|].
  all: pose proof (next_wait_min wait) as Hmin.
  all: destruct (clock w1 + next_wait wait <? deadline) eqn:Hlt; [|reflexivity].
  all: apply Z.ltb_lt in Hlt.
  - unfold MinTimeout, Millisecond in *. lia.
  - apply IH. cbn [clock after_sleep].
    unfold MinTimeout, Millisecond in *. lia.
Qed.

(** The fuel [Retry] starts the loop with is never used up: more of it
    changes nothing. *)
Lemma Retry_fuel_enough dsn timeout n c (w : World env) :
  Retry_loop env (n + Z.to_nat (timeout / MinTimeout + 1)) (clock w + timeout) 0
    (connect_once env dsn) c w
  = Retry_loop env (Z.to_nat (timeout / MinTimeout + 1)) (clock w + timeout) 0
      (connect_once env dsn) c w.
Proof.
  induction n as [|n IH]; [reflexivity|].
  cbn [Nat.add]. rewrite Retry_loop_fuel; [exact IH|].
  assert (0 < MinTimeout) as Hpos by (unfold MinTimeout, Millisecond; lia).
  pose proof (Z.mod_pos_bound timeout MinTimeout Hpos) as Hmod.
  pose proof (Z.div_mod timeout MinTimeout ltac:(lia)) as Hdiv.
  destruct (Z_lt_le_dec (timeout / MinTimeout + 1) 0) as [Hneg|Hnn].
  - assert (timeout <= 0) by nia. nia.
  - rewrite Nat2Z.inj_add, Z2Nat.id by lia. nia.
Qed.

Lemma retry_log_connected dsn deadline wait start log :
  retry_log dsn deadline wait start log None ->
  exists pre t1 t2, log = pre ++ connected dsn t1 t2.
Proof.
  intros H. remember None as cause eqn:Hcause.
  induction H as [wait start t Ht
                 |wait start att e t rest cause Hatt Ht Hlt Hrest IH
                 |wait start att e t Hatt Ht Hge]; [| |discriminate Hcause].
  - by exists [], start, t.
  - destruct (IH Hcause) as (pre & t1 & t2 & ->).
    eexists (att ++ _ :: pre), t1, t2. by rewrite <- List.app_assoc.
Qed.

Lemma retry_log_exhausted dsn deadline wait start log e :
  retry_log dsn deadline wait start log (Some e) ->
  exists pre t d, log = pre ++ [{| at_time := t; what := CallSleep d; failed := None |}].
Proof.
  intros H. remember (Some e) as cause eqn:Hcause.
  induction H as [wait start t Ht
                 |wait start att e' t rest cause Hatt Ht Hlt Hrest IH
                 |wait start att e' t Hatt Ht Hge]; [discriminate Hcause| |].
  - destruct (IH Hcause) as (pre & t' & d & ->).
    eexists (att ++ _ :: pre), t', d. by rewrite <- List.app_assoc.
  - by eexists att, t, _.
Qed.

(** Every log starts with an open, made at [start], and a ping follows an
    open that succeeded. *)
Lemma retry_log_first dsn deadline wait start log cause :
  retry_log dsn deadline wait start log cause ->
  exists first rest,
    log = first :: rest /\ what first = CallOpen dsn /\ at_time first = start /\
    (failed first = None ->
       exists second rest',
         rest = second :: rest' /\ what second = CallPing (fresh_handle dsn)).
Proof.
  intros [wait' start' t Ht
         |wait' start' att e t rest cause' [->|(t' & Ht' & ->)] Ht Hlt Hrest
         |wait' start' att e t [->|(t' & Ht' & ->)] Ht Hge].
  all: eexists _, _; split; [reflexivity|]; split; [reflexivity|]; split; [reflexivity|].
  all: cbn [failed]; try discriminate.
  all: intros _; by eexists _, _.
Qed.

(** The loop around the function literal leaves such a log. *)
Lemma Retry_loop_log dsn fuel deadline wait c (w : World env) :
  deadline - clock w <= Z.of_nat fuel * MinTimeout ->
  exists cause c' w' new,
    Retry_loop env fuel deadline wait (connect_once env dsn) c w = (Val (cause, c'), w') /\
    trace w' = trace w ++ new /\
    retry_log dsn deadline wait (clock w) new cause /\
    (cause = None -> c' = Some (fresh_handle dsn)) /\
    (cause <> None -> deadline <= clock w').
Proof.
  assert (0 < MinTimeout) as Hpos by (unfold MinTimeout, Millisecond; lia).
  revert wait c w. induction fuel as [|fuel IH]; intros wait c w Hfuel.
  all: rewrite (Retry_loop_eq _ deadline wait).
  all: pose proof (next_wait_min wait) as Hmin.
  all: destruct (connect_once_cases dsn c w)
         as [(e & s' & Ho & E)|[(e & s' & s'' & Ho & Hp & E)|(s' & s'' & Ho & Hp & E)]];
       rewrite E; cbn [Retryable RetryableError negb Err].
  (* the attempt succeeded *)
  3,6: (eexists None, _, _, _; split; [reflexivity|]; split;
        [cbn [trace after_call]; rewrite <- List.app_assoc; reflexivity|];
        split; [apply retry_connected; cbn [clock after_call]; lia|];
        split; [reflexivity|done]).
  (* it failed: is there time for the next wait? *)
  all: match goal with |- context [?a <? ?b] => destruct (a <? b) eqn:Hlt end.
  all: try (apply Z.ltb_lt in Hlt).
  all: try (apply Z.ltb_ge in Hlt).
  all: cbn [clock after_call] in Hlt.
  (* no fuel and time left: the fuel covers the time *)
  1,3: (exfalso; lia).
  (* the timeout comes first *)
  1,2,4,6: (eexists (Some e), _, _, _; split; [reflexivity|]; split;
    [cbn [trace after_sleep after_call]; rewrite <- ?List.app_assoc; reflexivity|];
    split;
    [ first
        [ apply (retry_exhausted dsn deadline wait (clock w)
                   [{| at_time := clock w; what := CallOpen dsn; failed := Some e |}] e);
          [by left | cbn [clock after_call]; lia | cbn [clock after_call]; lia]
        | apply (retry_exhausted dsn deadline wait (clock w)
                   [{| at_time := clock w; what := CallOpen dsn; failed := None |};
                    {| at_time := clock w + Z.max 0 (took env (CallOpen dsn) (srv w));
                       what := CallPing (fresh_handle dsn); failed := Some e |}] e);
          [right; eexists; split; [|reflexivity]; lia
          | cbn [clock after_call]; lia | cbn [clock after_call]; lia] ]
    | split; [discriminate|]; intros _; cbn [clock after_sleep after_call]; lia ]).
  (* another attempt *)
  all: match goal with |- context [Retry_loop env _ _ ?wt _ ?c1 ?w2] =>
         destruct (IH wt c1 w2) as (cause & c' & w' & new & E2 & Htrace & Hlog & Hok & Hlate);
           [cbn [clock after_sleep after_call]; lia|]
       end.
  all: rewrite E2; eexists cause, c', w', _; split; [reflexivity|].
  all: split; [rewrite Htrace; cbn [trace after_sleep after_call];
               rewrite <- !List.app_assoc; reflexivity|].
  all: split; [|by split].
  all: cbn [clock after_sleep after_call] in Hlog.
  all: rewrite (Z.max_r 0 (next_wait wait)) in Hlog by lia.
  - apply (retry_again dsn deadline wait (clock w)
             [{| at_time := clock w; what := CallOpen dsn; failed := Some e |}] e);
      [by left | cbn [clock after_call]; lia | cbn [clock after_call]; lia | exact Hlog].
  - apply (retry_again dsn deadline wait (clock w)
             [{| at_time := clock w; what := CallOpen dsn; failed := None |};
              {| at_time := clock w + Z.max 0 (took env (CallOpen dsn) (srv w));
                 what := CallPing (fresh_handle dsn); failed := Some e |}] e);
      [right; eexists; split; [|reflexivity]; lia
      | cbn [clock after_call]; lia | cbn [clock after_call]; lia | exact Hlog].
Qed.


End Connector.

(** Three seconds against a server that is down: attempts at 0s, after
    the 500ms wait and after the 1s wait; the 2s wait would end after the
    timeout, so the connector gives up when the three seconds are over. *)
Example mySQLConnect_unreachable :
  let out := mySQLConnect unreachable three_seconds (start_world unreachable tt) in
  fst out = Val (None, Some (ErrorString
              "Could not connect to server: dial tcp: connection refused")) /\
  clock (snd out) = 3 * Second /\
  map at_time (List.filter is_open (trace (snd out))) = [0; 502000000; 1504000000].
Proof. vm_compute. repeat split. Qed.

(** ** Sample runs of the parser and of the quoting *)

Example extract_mysql8 :
  let out := "CREATE DATABASE `app` /*!40100 DEFAULT CHARACTER SET utf8mb4 COLLATE utf8mb4_0900_ai_ci */ /*!80016 DEFAULT ENCRYPTION='N' */" in
  extractIdentAfter out defCharSetKey = Val "utf8mb4" /\
  extractIdentAfter out defaultCollateKey = Val "utf8mb4_0900_ai_ci".
Proof. split; reflexivity. Qed.

Example extract_no_collation :
  extractIdentAfter "CREATE DATABASE `app` /*!40100 DEFAULT CHARACTER SET latin1 */"
    defaultCollateKey = Val "".
Proof. reflexivity. Qed.

Example quote_plain : quoteIdentifier "app" = "`app`".
Proof. reflexivity. Qed.

Example quote_embedded : quoteIdentifier "a`b" = "`a``b`".
Proof. reflexivity. Qed.

(** * Further properties of the code *)

(** ** quoteIdentifier: the quoted text reads back as the identifier *)

Section QuotedReadBack.
Import GoString GoStringFacts.

Lemma read_quoted_body_double s rest :
  HasPrefix rest "`" = false ->
  read_quoted_body (double_backticks s +:+ "`" +:+ rest) = Some (s, rest).
Proof.
  intros Hrest. induction s as [|c s IH].
  - change (double_backticks "" +:+ "`" +:+ rest) with (String backtick rest).
    cbn [read_quoted_body]. rewrite Ascii.eqb_refl.
    destruct rest as [|c' rest']; [reflexivity|].
    simpl in Hrest. rewrite andb_true_r in Hrest.
    change "`"%char with backtick in Hrest. by rewrite Hrest.
  - cbn [double_backticks]. destruct (Ascii.eqb c backtick) eqn:E.
    + apply Ascii.eqb_eq in E as ->.
      change (String backtick (String backtick (double_backticks s)) +:+ "`" +:+ rest)
        with (String backtick (String backtick (double_backticks s +:+ "`" +:+ rest))).
      cbn [read_quoted_body]. rewrite !Ascii.eqb_refl, IH. reflexivity.
    + change (String c (double_backticks s) +:+ "`" +:+ rest)
        with (String c (double_backticks s +:+ "`" +:+ rest)).
      cbn [read_quoted_body]. rewrite E, IH. reflexivity.
Qed.

Lemma read_quoted_quoteIdentifier ident rest :
  HasPrefix rest "`" = false ->
  read_quoted (quoteIdentifier ident +:+ rest) = Some (ident, rest).
Proof.
  intros Hrest. rewrite quoteIdentifier_doubles, !app_assoc.
  change ("`" +:+ double_backticks ident +:+ "`" +:+ rest)
    with (String backtick (double_backticks ident +:+ "`" +:+ rest)).
  cbn [read_quoted]. rewrite Ascii.eqb_refl.
  by apply read_quoted_body_double.
Qed.

(** X1.  Whatever bytes the identifier holds, backticks included, the
    text [quoteIdentifier] builds, followed by any text that does not
    start with a backtick, reads back as that identifier and that text. *)
Theorem quoteIdentifier_reads_back (ident rest : string) :
  HasPrefix rest "`" = false ->
  read_quoted (quoteIdentifier ident +:+ rest) = Some (ident, rest).
Proof. apply read_quoted_quoteIdentifier. Qed.

Lemma quoteIdentifier_reads_back_witness :
  read_quoted (quoteIdentifier "a` -- " +:+ " CHARACTER SET `utf8`")
  = Some ("a` -- ", " CHARACTER SET `utf8`").
Proof. apply (quoteIdentifier_reads_back "a` -- " " CHARACTER SET `utf8`"). reflexivity. Defined.

(** X2.  Two identifiers with the same quoted text are the same. *)
Theorem quoteIdentifier_injective (a b : string) :
  quoteIdentifier a = quoteIdentifier b -> a = b.
Proof.
  intros H.
  assert (read_quoted (quoteIdentifier a +:+ "") = read_quoted (quoteIdentifier b +:+ ""))
    as Hread by (by rewrite H).
  rewrite !read_quoted_quoteIdentifier in Hread by reflexivity.
  by injection Hread.
Qed.

Lemma quoteIdentifier_injective_witness : "db`1" = "db`1".
Proof. apply (quoteIdentifier_injective "db`1" "db`1"). reflexivity. Defined.

(** X3.  In the statement [databaseSQLCMD] builds, what follows
    [<verb> DATABASE ] reads back as the name of the resource, whatever
    the name is, and the text after it is the two clauses. *)
Theorem databaseSQLCMD_name_reads_back (verb : string) (d : ResourceData)
    (name charset collation : string) :
  Get d "name" = VString name ->
  Get d "default_character_set" = VString charset ->
  Get d "default_collation" = VString collation ->
  exists tail,
    databaseSQLCMD verb d = Val (verb +:+ " DATABASE " +:+ tail) /\
    read_quoted tail =
      Some (name, " " +:+ quoted_clause defCharSetKey charset +:+ " "
                      +:+ quoted_clause defaultCollateKey collation).
Proof.
  intros Hname Hcs Hcol.
  exists (quoteIdentifier name +:+ " " +:+ quoted_clause defCharSetKey charset +:+ " "
            +:+ quoted_clause defaultCollateKey collation).
  split.
  - unfold databaseSQLCMD. rewrite Hname, Hcs, Hcol. simpl.
    by rewrite !quoted_clause_eq.
  - by apply read_quoted_quoteIdentifier.
Qed.

Lemma databaseSQLCMD_name_reads_back_witness :
  exists tail,
    databaseSQLCMD "CREATE"
      (database_data "default_character_set" "x` /* " "utf8mb4" "") =
      Val ("CREATE" +:+ " DATABASE " +:+ tail) /\
    read_quoted tail = Some ("x` /* ", " CHARACTER SET `utf8mb4` ").
Proof.
  apply (databaseSQLCMD_name_reads_back "CREATE"
           (database_data "default_character_set" "x` /* " "utf8mb4" "")
           "x` /* " "utf8mb4" ""); reflexivity.
Defined.

End QuotedReadBack.

(** ** extractIdentAfter: what a returned token is *)

Section ExtractedToken.
Import GoString GoStringFacts.

(** X4.  A token [extractIdentAfter] returns never holds a space, and it
    is the text between the end of the first occurrence of the keyword and
    the first space after it (or the empty string when the keyword does
    not occur): nothing before the first occurrence and nothing after that
    space is looked at. *)
Theorem extractIdentAfter_token_is_word (sql keyword tok : string) :
  extractIdentAfter sql keyword = Val tok ->
  has_byte " " tok = false /\
  ((absent keyword sql /\ tok = "") \/
   exists before after,
     sql = before +:+ keyword +:+ tok +:+ " " +:+ after /\
     first_occurrence keyword sql (String.length before)).
Proof.
  intros Hval.
  destruct (Index_cases keyword sql) as [[Eidx Habs]|(i & Eidx & Hfirst)].
  - assert (tok = "") as ->.
    { unfold extractIdentAfter in Hval. rewrite Eidx in Hval. by injection Hval. }
    split; [reflexivity|]. by left.
  - destruct (has_byte " " (drop (i + String.length keyword) sql)) eqn:Hsp.
    + destruct (has_byte_split _ _ Hsp) as (tok' & rest & Hremain & Htok).
      rewrite (extractIdentAfter_token sql keyword i tok' rest Hfirst Hremain Htok) in Hval.
      injection Hval as <-. split; [done|]. right.
      destruct (proj1 Hfirst) as (before & after0 & Hsql & Hlen).
      exists before, rest. rewrite Hlen. split; [|done].
      rewrite <- Hlen in Hremain. rewrite Hsql in Hremain.
      rewrite drop_app_plus, drop_app_length in Hremain.
      rewrite Hsql. by rewrite Hremain.
    + destruct (extractIdentAfter_no_space sql keyword i Hfirst Hsp) as [_ E].
      rewrite E in Hval. discriminate.
Qed.

Lemma extractIdentAfter_token_is_word_witness :
  has_byte " " "latin1" = false /\
  ((absent defCharSetKey "CREATE DATABASE `app` /*!40100 DEFAULT CHARACTER SET latin1 */"
    /\ "latin1" = "") \/
   exists before after,
     "CREATE DATABASE `app` /*!40100 DEFAULT CHARACTER SET latin1 */"
       = before +:+ defCharSetKey +:+ "latin1" +:+ " " +:+ after /\
     first_occurrence defCharSetKey
       "CREATE DATABASE `app` /*!40100 DEFAULT CHARACTER SET latin1 */"
       (String.length before)).
Proof.
  apply (extractIdentAfter_token_is_word
           "CREATE DATABASE `app` /*!40100 DEFAULT CHARACTER SET latin1 */"
           defCharSetKey "latin1").
  reflexivity.
Defined.

End ExtractedToken.

(** ** ReadDb: the ways through it *)

Section ReadPaths.
Import GoString GoStringFacts.

Variable env : Env.

Ltac run_ReadDb :=
  unfold ReadDb, QueryRow, serverVersion, serverVersionString, panic_with, call,
    mbind, M_bind, bind, lift, mret, M_ret, ret.

Lemma Set_schema d key v : schema (Set_ d key v) = schema d.
Proof.
  unfold Set_. destruct (schema d !! key) as [sch|]; [|done].
  by destruct (has_type v (Type_ sch)).
Qed.

Lemma Set_Id d key v : Id (Set_ d key v) = Id d.
Proof.
  unfold Set_. destruct (schema d !! key) as [sch|]; [|done].
  by destruct (has_type v (Type_ sch)).
Qed.

Lemma Get_after_Set d key s :
  Type_ <$> schema d !! key = Some TypeString ->
  Get (Set_ d key (VString s)) key = VString s.
Proof.
  intros Hdecl. unfold Set_, Get.
  destruct (schema d !! key) as [sch|] eqn:E; [|done].
  injection Hdecl as Hty. rewrite Hty. cbn [has_type schema attrs].
  by rewrite E, lookup_insert_eq.
Qed.

Lemma Get_after_Set_other d key v key' :
  key <> key' -> Get (Set_ d key v) key' = Get d key'.
Proof.
  intros Hne. unfold Get. by rewrite Set_schema, Set_other.
Qed.

Lemma ReadDb_store_schema d name charset collation :
  schema (snd (ReadDb_store d name charset collation)) = schema d.
Proof. unfold ReadDb_store. cbn [snd]. by rewrite !Set_schema. Qed.

Lemma ReadDb_store_Id d name charset collation :
  Id (snd (ReadDb_store d name charset collation)) = Id d.
Proof. unfold ReadDb_store. cbn [snd]. by rewrite !Set_Id. Qed.

(** X5.  When the creation statement the server answers with names a
    collation, or names no character set, [ReadDb] asks nothing else: it
    returns nil after the one query, keeps the ID, and stores the ID as
    the name and the collation of the statement as the default collation
    (where the schema declares these as strings). *)
Theorem ReadDb_without_lookup (d : ResourceData) (meta : MySQLConfiguration)
    (db : DB) (w : World env) (dbname createSQL charset collation : string)
    (s1 : Srv env) :
  Db meta = Some db ->
  db_QueryRow env db (showCreateDatabase (Id d)) [] (srv w)
    = (inr (Some [dbname; createSQL]), s1) ->
  extractIdentAfter createSQL defCharSetKey = Val charset ->
  extractIdentAfter createSQL defaultCollateKey = Val collation ->
  collation <> "" \/ charset = "" ->
  exists d',
    ReadDb env d meta w =
      (Val (None, d'),
       after_call env w (CallQueryRow db (showCreateDatabase (Id d)) []) None s1) /\
    Id d' = Id d /\
    (Type_ <$> schema d !! "default_collation" = Some TypeString ->
       Get d' "default_collation" = VString collation) /\
    (Type_ <$> schema d !! "name" = Some TypeString ->
       Get d' "name" = VString (Id d)).
Proof.
  intros Hdb Hq Hcs Hcol Hskip. unfold showCreateDatabase in Hq.
  exists (snd (ReadDb_store d (Id d) charset collation)).
  split; [|split; [|split]].
  - run_ReadDb. rewrite Hdb, Hq.
    change (Row_Scan (inr (Some [dbname; createSQL])) 2)
      with (@inr error _ [dbname; createSQL]).
    cbn [nth]. rewrite Hcs, Hcol.
    assert (String.eqb collation "" && negb (String.eqb charset "") = false) as ->.
    { destruct Hskip as [Hne| ->].
      - apply String.eqb_neq in Hne. by rewrite Hne.
      - by rewrite andb_false_r. }
    reflexivity.
  - apply ReadDb_store_Id.
  - intros Hdecl. unfold ReadDb_store. cbn [snd].
    apply Get_after_Set. by rewrite !Set_schema.
  - intros Hdecl. unfold ReadDb_store. cbn [snd].
    rewrite !Get_after_Set_other by done. by apply Get_after_Set.
Qed.

(** The run of [ReadDb] from the point where the default collation is
    needed: the creation statement names a character set and no collation. *)
Lemma ReadDb_needs_lookup d meta db (w : World env) dbname createSQL charset s1 :
  Db meta = Some db ->
  db_QueryRow env db (showCreateDatabase (Id d)) [] (srv w)
    = (inr (Some [dbname; createSQL]), s1) ->
  extractIdentAfter createSQL defCharSetKey = Val charset ->
  charset <> "" ->
  extractIdentAfter createSQL defaultCollateKey = Val "" ->
  ReadDb env d meta w =
    let w1 := after_call env w (CallQueryRow db (showCreateDatabase (Id d)) []) None s1 in
    match mySQLServerVersion env db s1 with
    | (inl err, s2) =>
        (Val (Some err, d), after_call env w1 (CallServerVersion db) (Some err) s2)
    | (inr cv, s2) =>
        let w2 := after_call env w1 (CallServerVersion db) None s2 in
        match mySQLServerVersionString env db s2 with
        | (inl err, s3) =>
            (Val (Some err, d),
             after_call env w2 (CallServerVersionString db) (Some err) s3)
        | (inr sv, s3) =>
            let w3 := after_call env w2 (CallServerVersionString db) None s3 in
            let ndest :=
              if negb (GoString.Contains sv "MariaDB")
                 && GreaterThan env cv (requiredVersion env)
              then 7%nat else 6%nat in
            match db_QueryRow env db showCollation [charset] s3 with
            | (row, s4) =>
                let w4 := after_call env w3 (CallQueryRow db showCollation [charset])
                            (err_of_sum row) s4 in
                match Row_Scan row ndest with
                | inl res =>
                    if decide (res = ErrNoRows)
                    then (Val (Some (ErrorString ("Charset " +:+ charset
                                       +:+ " has no default collation")), d), w4)
                    else (Val (Some (ErrorString ("Error getting default charset: "
                                       +:+ Error res +:+ ", " +:+ charset)), d), w4)
                | inr cols => (Val (ReadDb_store d (Id d) charset (nth 0 cols "")), w4)
                end
            end
        end
    end.
Proof.
  intros Hdb Hq Hcs Hne Hcol.
  assert (String.eqb charset "" = false) as Hne' by (by apply String.eqb_neq).
  unfold showCreateDatabase in *.
  run_ReadDb. rewrite Hdb, Hq.
  change (Row_Scan (inr (Some [dbname; createSQL])) 2)
    with (@inr error _ [dbname; createSQL]).
  cbn [nth]. rewrite Hcs, Hcol, Hne'. cbn [String.eqb andb negb srv].
  cbv zeta.
  destruct (mySQLServerVersion env db s1) as [[err|cv] s2]; [reflexivity|].
  cbn [srv].
  destruct (mySQLServerVersionString env db s2) as [[err|sv] s3]; [reflexivity|].
  cbn [srv].
  destruct (db_QueryRow env db showCollation [charset] s3) as [row s4].
  destruct (Row_Scan row _) as [res|cols]; [|reflexivity].
  destruct (decide (res = ErrNoRows)); reflexivity.
Qed.

(** X6.  When the default collation is needed and the server's version
    cannot be had, as a number or as text, [ReadDb] returns that very
    error, leaves the resource as it was, and does not send the lookup:
    the failed call is the last one made. *)
Theorem ReadDb_version_error_verbatim (d : ResourceData) (meta : MySQLConfiguration)
    (db : DB) (w : World env) (dbname createSQL charset : string) (e : error)
    (s1 : Srv env) :
  Db meta = Some db ->
  db_QueryRow env db (showCreateDatabase (Id d)) [] (srv w)
    = (inr (Some [dbname; createSQL]), s1) ->
  extractIdentAfter createSQL defCharSetKey = Val charset ->
  charset <> "" ->
  extractIdentAfter createSQL defaultCollateKey = Val "" ->
  let w1 := after_call env w (CallQueryRow db (showCreateDatabase (Id d)) []) None s1 in
  (forall s2,
     mySQLServerVersion env db s1 = (inl e, s2) ->
     ReadDb env d meta w =
       (Val (Some e, d), after_call env w1 (CallServerVersion db) (Some e) s2)) /\
  (forall cv s2 s3,
     mySQLServerVersion env db s1 = (inr cv, s2) ->
     mySQLServerVersionString env db s2 = (inl e, s3) ->
     ReadDb env d meta w =
       (Val (Some e, d),
        after_call env (after_call env w1 (CallServerVersion db) None s2)
          (CallServerVersionString db) (Some e) s3)).
Proof.
  intros Hdb Hq Hcs Hne Hcol w1.
  rewrite (ReadDb_needs_lookup d meta db w dbname createSQL charset s1) by done.
  cbv zeta. split.
  - intros s2 ->. reflexivity.
  - intros cv s2 s3 -> ->. reflexivity.
Qed.

(** X7.  When the lookup of the default collation fails with anything
    but [sql.ErrNoRows], [ReadDb] returns a new error with the text
    [Error getting default charset: <the failure>, <the character set>]
    and leaves the resource as it was. *)
Theorem ReadDb_lookup_error_wrapped (d : ResourceData) (meta : MySQLConfiguration)
    (db : DB) (w : World env) (dbname createSQL charset : string)
    (cv : Version env) (sv : string) (e : error) (s1 s2 s3 : Srv env) :
  Db meta = Some db ->
  db_QueryRow env db (showCreateDatabase (Id d)) [] (srv w)
    = (inr (Some [dbname; createSQL]), s1) ->
  extractIdentAfter createSQL defCharSetKey = Val charset ->
  charset <> "" ->
  extractIdentAfter createSQL defaultCollateKey = Val "" ->
  mySQLServerVersion env db s1 = (inr cv, s2) ->
  mySQLServerVersionString env db s2 = (inr sv, s3) ->
  fst (db_QueryRow env db showCollation [charset] s3) = inl e ->
  e <> ErrNoRows ->
  fst (ReadDb env d meta w) =
    Val (Some (ErrorString ("Error getting default charset: " +:+ Error e
                              +:+ ", " +:+ charset)), d).
Proof.
  intros Hdb Hq Hcs Hne Hcol Hv Hvs Hlookup Hother.
  rewrite (ReadDb_needs_lookup d meta db w dbname createSQL charset s1) by done.
  cbv zeta. rewrite Hv, Hvs.
  destruct (db_QueryRow env db showCollation [charset] s3) as [row s4].
  cbn [fst] in Hlookup. subst row. cbn [Row_Scan].
  by destruct (decide (e = ErrNoRows)).
Qed.

(** X8.  How many columns the lookup is read with depends on the server:
    seven when the version text does not contain [MariaDB] and the
    version is greater than 8.0.0, six otherwise.  A row of that many
    columns gives nil and its first column as the collation; a row of
    any other length gives an error and leaves the resource as it was. *)
Theorem ReadDb_lookup_arity (d : ResourceData) (meta : MySQLConfiguration)
    (db : DB) (w : World env) (dbname createSQL charset : string)
    (cv : Version env) (sv : string) (cols : list string) (s1 s2 s3 : Srv env) :
  Db meta = Some db ->
  db_QueryRow env db (showCreateDatabase (Id d)) [] (srv w)
    = (inr (Some [dbname; createSQL]), s1) ->
  extractIdentAfter createSQL defCharSetKey = Val charset ->
  charset <> "" ->
  extractIdentAfter createSQL defaultCollateKey = Val "" ->
  mySQLServerVersion env db s1 = (inr cv, s2) ->
  mySQLServerVersionString env db s2 = (inr sv, s3) ->
  fst (db_QueryRow env db showCollation [charset] s3) = inr (Some cols) ->
  let mysql8 := negb (Contains sv "MariaDB")
                && GreaterThan env cv (requiredVersion env) in
  (length cols = (if mysql8 then 7 else 6)%nat ->
     fst (ReadDb env d meta w) = Val (ReadDb_store d (Id d) charset (nth 0 cols ""))) /\
  (length cols <> (if mysql8 then 7 else 6)%nat ->
     exists err, fst (ReadDb env d meta w) = Val (Some err, d)).
Proof.
  intros Hdb Hq Hcs Hne Hcol Hv Hvs Hlookup mysql8.
  rewrite (ReadDb_needs_lookup d meta db w dbname createSQL charset s1) by done.
  cbv zeta. rewrite Hv, Hvs.
  destruct (db_QueryRow env db showCollation [charset] s3) as [row s4].
  cbn [fst] in Hlookup. subst row. cbn [Row_Scan]. fold mysql8.
  split; intros Hlen.
  - by destruct (decide _).
  - destruct (decide (length cols = _)); [done|].
    destruct (decide (_ = ErrNoRows)); eauto.
Qed.

Lemma extractIdentAfter_panic_kind sql keyword p :
  extractIdentAfter sql keyword = Panic p -> p = SliceBoundsOutOfRange.
Proof.
  unfold extractIdentAfter, slice_from, slice_to, mbind, result_bind.
  intros H. repeat case_match; congruence.
Qed.

(** X9.  A creation statement that ends with the name of the character
    set or of the collation, no space after the first [CHARACTER SET ] or
    the first [COLLATE ] in it, makes [ReadDb] panic on a slice bound,
    after the one query and with nothing stored. *)
Theorem ReadDb_panics_on_last_word (d : ResourceData) (meta : MySQLConfiguration)
    (db : DB) (w : World env) (dbname createSQL keyword : string) (i : nat)
    (s1 : Srv env) :
  Db meta = Some db ->
  db_QueryRow env db (showCreateDatabase (Id d)) [] (srv w)
    = (inr (Some [dbname; createSQL]), s1) ->
  keyword = defCharSetKey \/ keyword = defaultCollateKey ->
  first_occurrence keyword createSQL i ->
  has_byte " " (drop (i + String.length keyword) createSQL) = false ->
  ReadDb env d meta w =
    (Panic SliceBoundsOutOfRange,
     after_call env w (CallQueryRow db (showCreateDatabase (Id d)) []) None s1).
Proof.
  intros Hdb Hq Hkey Hfirst Hno. unfold showCreateDatabase in *.
  destruct (extractIdentAfter_no_space createSQL keyword i Hfirst Hno) as [_ Hpanic].
  run_ReadDb. rewrite Hdb, Hq.
  change (Row_Scan (inr (Some [dbname; createSQL])) 2)
    with (@inr error _ [dbname; createSQL]).
  cbn [nth]. destruct Hkey as [-> | ->].
  - by rewrite Hpanic.
  - destruct (extractIdentAfter createSQL defCharSetKey) as [charset|p] eqn:E.
    + by rewrite Hpanic.
    + by rewrite (extractIdentAfter_panic_kind _ _ _ E).
Qed.

(** What every run of [ReadDb] leaves behind *)
Lemma ReadDb_effects d meta (w : World env) out w' :
  ReadDb env d meta w = (out, w') ->
  (exists new,
     trace w' = trace w ++ new /\ forallb is_query new = true /\
     (length new <= 4)%nat /\
     (Db meta <> None -> new <> [])) /\
  dialContext w' = dialContext w /\
  clock w <= clock w' /\
  forall r d', out = Val (r, d') ->
    schema d' = schema d /\
    (r <> None -> d' = d) /\
    (Id d' = Id d \/ (Id d' = "" /\ r = None)).
Proof.
  run_ReadDb. intros H.
  repeat (case_match; simplify_eq; try done).
  all: cbn [trace clock dialContext].
  all: split;
    [eexists; split;
       [first [rewrite <- ?List.app_assoc; reflexivity | symmetry; apply List.app_nil_r]
       |split; [reflexivity|split; [cbn; lia|intros ?; first [congruence | cbn; discriminate]]]]|].
  all: (split; [reflexivity|split; [lia|]]).
  all: intros r d' ?; simplify_eq.
  all: rewrite ?Set_schema, ?Set_Id.
  all: try (split; [reflexivity|split; [done|by left]]).
  all: try (split; [reflexivity|split; [done|by right]]).
Qed.

(** X10.  Whatever the server answers, [ReadDb] only asks: the calls it
    adds to the log are queries and version requests, at most four of
    them, and at least one when there is a handle.  It leaves the
    registered dialer alone.  When it returns, the schema of the resource
    is unchanged; with an error the resource is exactly as it was, and the
    ID changes in one way only, to the empty string together with nil. *)
Theorem ReadDb_only_asks (d : ResourceData) (meta : MySQLConfiguration) (w : World env) :
  let out := fst (ReadDb env d meta w) in
  let w' := snd (ReadDb env d meta w) in
  (exists new,
     trace w' = trace w ++ new /\ forallb is_query new = true /\
     (length new <= 4)%nat /\
     (Db meta <> None -> new <> [])) /\
  dialContext w' = dialContext w /\
  (forall r d', out = Val (r, d') ->
     schema d' = schema d /\
     (r <> None -> d' = d) /\
     (Id d' = Id d \/ (Id d' = "" /\ r = None))).
Proof.
  intros out w'.
  destruct (ReadDb_effects d meta w out w') as (Hnew & Hdial & _ & Hdata).
  { subst out w'. by destruct (ReadDb env d meta w). }
  done.
Qed.

(** X11.  On resource data of the schema [ResourceDB] declares, the
    character set [ReadDb] reads from the server is stored nowhere: it is
    written under [default_character_set], a key the schema does not
    have, so that key still reads as nil and [default_charset] reads as
    before. *)
Theorem ReadDb_drops_character_set (d : ResourceData) (meta : MySQLConfiguration)
    (w : World env) (r : option error) (d' : ResourceData) :
  schema d = ResourceDB_Schema ->
  fst (ReadDb env d meta w) = Val (r, d') ->
  Get d' "default_character_set" = VNil /\
  Get d' "default_charset" = Get d "default_charset".
Proof.
  intros Hsch Hrun.
  destruct (ReadDb env d meta w) as [out w'] eqn:E. cbn [fst] in Hrun. subst out.
  destruct (ReadDb_effects d meta w _ w' E) as (_ & _ & _ & Hdata).
  destruct (Hdata r d' eq_refl) as (Hsch' & _ & _).
  unfold Get. rewrite Hsch', Hsch.
  rewrite (ReadDb_keeps_default_charset env d meta w r d' w' E).
  split; reflexivity.
Qed.

End ReadPaths.

Section ReadRuns.

(** A database in [utf8mb4] with its collation spelled out: one query *)
Lemma ReadDb_without_lookup_witness :
  let env := answering (inr (Some ["app";
    "CREATE DATABASE `app` /*!40100 DEFAULT CHARACTER SET utf8mb4 COLLATE utf8mb4_unicode_ci */"])) in
  exists d',
    fst (ReadDb env (SetId utf8mb4_database "app") sample_meta (start_world env tt))
      = Val (None, d') /\
    Id d' = "app" /\
    Get d' "default_collation" = VString "utf8mb4_unicode_ci" /\
    Get d' "name" = VString "app".
Proof.
  intros env.
  assert ("utf8mb4_unicode_ci" <> "" \/ "utf8mb4" = "") as Hnamed by (left; discriminate).
  destruct (ReadDb_without_lookup env (SetId utf8mb4_database "app") sample_meta sample_db
              (start_world env tt) "app"
              "CREATE DATABASE `app` /*!40100 DEFAULT CHARACTER SET utf8mb4 COLLATE utf8mb4_unicode_ci */"
              "utf8mb4" "utf8mb4_unicode_ci" tt
              eq_refl eq_refl eq_refl eq_refl Hnamed)
    as (d' & Hrun & Hid & Hcol & Hname).
  exists d'. rewrite Hrun. split; [reflexivity|]. split; [exact Hid|].
  split; [exact (Hcol eq_refl)|exact (Hname eq_refl)].
Defined.

(** The connection drops between the query and the version request *)
Lemma ReadDb_version_error_verbatim_witness :
  let reset := OtherError "*net.OpError" "read: connection reset by peer" in
  let env := latin1_server (inl reset) (inr "5.7.30-log") (inr None) in
  fst (ReadDb env (SetId utf8mb4_database "app") sample_meta (start_world env tt))
    = Val (Some reset, SetId utf8mb4_database "app") /\
  length (trace (snd (ReadDb env (SetId utf8mb4_database "app") sample_meta
                        (start_world env tt)))) = 2%nat.
Proof.
  intros reset env.
  destruct (ReadDb_version_error_verbatim env (SetId utf8mb4_database "app") sample_meta
              sample_db (start_world env tt) "app"
              "CREATE DATABASE `app` /*!40100 DEFAULT CHARACTER SET latin1 */"
              "latin1" reset tt
              eq_refl eq_refl eq_refl ltac:(discriminate) eq_refl) as [Hversion _].
  rewrite (Hversion tt eq_refl). split; reflexivity.
Defined.

(** The account may not run SHOW COLLATION *)
Lemma ReadDb_lookup_error_wrapped_witness :
  let denied := MySQLError 1142 "SHOW command denied to user 'tf'@'%'" in
  let env := latin1_server (inr 50730) (inr "5.7.30-log") (inl denied) in
  fst (ReadDb env (SetId utf8mb4_database "app") sample_meta (start_world env tt))
    = Val (Some (ErrorString
             "Error getting default charset: Error 1142: SHOW command denied to user 'tf'@'%', latin1"),
           SetId utf8mb4_database "app").
Proof.
  intros denied env.
  apply (ReadDb_lookup_error_wrapped env (SetId utf8mb4_database "app") sample_meta
           sample_db (start_world env tt) "app"
           "CREATE DATABASE `app` /*!40100 DEFAULT CHARACTER SET latin1 */"
           "latin1" 50730 "5.7.30-log" denied tt tt tt
           eq_refl eq_refl eq_refl ltac:(discriminate) eq_refl eq_refl eq_refl eq_refl
           ltac:(discriminate)).
Defined.

(** MySQL 8.0.21 answers with seven columns, and they are read as seven *)
Lemma ReadDb_lookup_arity_witness :
  let env := latin1_server (inr 80021) (inr "8.0.21") (inr (Some latin1_row7)) in
  fst (ReadDb env (SetId utf8mb4_database "app") sample_meta (start_world env tt))
    = Val (ReadDb_store (SetId utf8mb4_database "app") "app" "latin1" "latin1_swedish_ci").
Proof.
  intros env.
  apply (proj1 (ReadDb_lookup_arity env (SetId utf8mb4_database "app") sample_meta
                  sample_db (start_world env tt) "app"
                  "CREATE DATABASE `app` /*!40100 DEFAULT CHARACTER SET latin1 */"
                  "latin1" 80021 "8.0.21" latin1_row7 tt tt tt
                  eq_refl eq_refl eq_refl ltac:(discriminate) eq_refl eq_refl eq_refl
                  eq_refl)).
  reflexivity.
Defined.

(** A server that prints the statement without the version comment *)
Lemma ReadDb_panics_on_last_word_witness :
  let env := answering (inr (Some ["app";
    "CREATE DATABASE `app` DEFAULT CHARACTER SET latin1"])) in
  fst (ReadDb env (SetId utf8mb4_database "app") sample_meta (start_world env tt))
    = Panic SliceBoundsOutOfRange.
Proof.
  intros env.
  rewrite (ReadDb_panics_on_last_word env (SetId utf8mb4_database "app") sample_meta
             sample_db (start_world env tt) "app"
             "CREATE DATABASE `app` DEFAULT CHARACTER SET latin1" defCharSetKey 30 tt
             eq_refl eq_refl (or_introl eq_refl)).
  - reflexivity.
  - split.
    + by exists "CREATE DATABASE `app` DEFAULT ", "latin1".
    + by apply no_occurrence_before.
  - reflexivity.
Defined.

(** The character set of the server does not reach the resource *)
Lemma ReadDb_drops_character_set_witness :
  let env := answering (inr (Some ["app";
    "CREATE DATABASE `app` /*!40100 DEFAULT CHARACTER SET utf8mb4 COLLATE utf8mb4_unicode_ci */"])) in
  let d := SetId (NewResourceData ResourceDB_Schema [("name", VString "app")]) "app" in
  exists d',
    fst (ReadDb env d sample_meta (start_world env tt)) = Val (None, d') /\
    Get d' "default_character_set" = VNil /\
    Get d' "default_charset" = VString "utf8".
Proof.
  intros env d. eexists. split; [reflexivity|].
  apply (ReadDb_drops_character_set env d sample_meta (start_world env tt) None _
           eq_refl eq_refl).
Defined.

End ReadRuns.

(** ** CreateDb: the statement and the read that follows it *)

Section CreatePaths.

Variable env : Env.

(** A statement was built: the three attributes it is built from are
    strings. *)
Lemma databaseSQLCMD_Val verb d stmt :
  databaseSQLCMD verb d = Val stmt -> exists name, Get d "name" = VString name.
Proof.
  unfold databaseSQLCMD, mbind, result_bind. intros H.
  destruct (Get d "name") as [|name| |]; try discriminate H. by exists name.
Qed.

(** Once the statement has been applied, [CreateDb] is [ReadDb] on the
    resource whose ID is its name. *)
Lemma CreateDb_reads_back d meta db (w : World env) stmt name s1 :
  Db meta = Some db ->
  databaseSQLCMD "CREATE" d = Val stmt ->
  Get d "name" = VString name ->
  db_Exec env db stmt (srv w) = (None, s1) ->
  CreateDb env d meta w =
    ReadDb env (SetId d name) meta (after_call env w (CallExec db stmt) None s1).
Proof.
  intros Hdb Hstmt Hname Hexec.
  unfold CreateDb, Exec, call, mbind, M_bind, bind, lift.
  rewrite Hstmt, Hdb, Hexec, Hname. reflexivity.
Qed.

(** X12.  On resource data of the schema [ResourceDB] declares,
    [CreateDb] never gets as far as the server: it panics while it builds
    the statement, on a nil interface when the name is a string, and
    nothing is sent.  The statement builder reads
    [default_character_set], which the schema does not declare. *)
Theorem CreateDb_panics_on_declared_schema (d : ResourceData)
    (meta : MySQLConfiguration) (w : World env) :
  schema d = ResourceDB_Schema ->
  (exists p, CreateDb env d meta w = (Panic p, w)) /\
  (forall name, Get d "name" = VString name ->
     CreateDb env d meta w = (Panic NilInterfaceConversion, w)).
Proof.
  intros Hsch.
  assert (Get d "default_character_set" = VNil) as Hnil.
  { unfold Get. by rewrite Hsch. }
  unfold CreateDb, databaseSQLCMD, mbind, M_bind, bind, lift, result_bind.
  rewrite Hnil. split.
  - destruct (Get d "name"); cbn; eauto.
  - intros name ->. reflexivity.
Qed.

(** X13.  [CreateDb] sends at most one statement.  Either it panics with
    nothing sent, or the first call it adds to the log is the Exec of the
    CREATE statement, made at once, and whatever follows only asks the
    server (queries and version requests, at most four); when the Exec
    fails nothing follows, and its error is returned with the resource
    as it was. *)
Theorem CreateDb_sends_one_statement (d : ResourceData) (meta : MySQLConfiguration)
    (w : World env) :
  let out := fst (CreateDb env d meta w) in
  let w' := snd (CreateDb env d meta w) in
  (returns out = false /\ w' = w) \/
  (exists db stmt first rest,
     Db meta = Some db /\
     databaseSQLCMD "CREATE" d = Val stmt /\
     trace w' = trace w ++ first :: rest /\
     what first = CallExec db stmt /\
     at_time first = clock w /\
     forallb is_query rest = true /\
     (length rest <= 4)%nat /\
     (forall e, failed first = Some e -> rest = [] /\ out = Val (Some e, d))).
Proof.
  intros out w'. subst out w'.
  destruct (databaseSQLCMD "CREATE" d) as [stmt|p] eqn:Hstmt.
  2: { left. unfold CreateDb, mbind, M_bind, bind, lift. by rewrite Hstmt. }
  destruct (Db meta) as [db|] eqn:Hdb.
  2: { left. unfold CreateDb, Exec, panic_with, mbind, M_bind, bind, lift.
       by rewrite Hstmt, Hdb. }
  destruct (databaseSQLCMD_Val _ _ _ Hstmt) as [name Hname].
  right. exists db, stmt.
  destruct (db_Exec env db stmt (srv w)) as [[e|] s1] eqn:Hexec.
  - exists {| at_time := clock w; what := CallExec db stmt; failed := Some e |}, [].
    unfold CreateDb, Exec, call, mbind, M_bind, bind, lift.
    rewrite Hstmt, Hdb, Hexec. cbn [fst snd trace what at_time failed forallb length].
    do 5 (split; [reflexivity|]). split; [reflexivity|]. split; [lia|].
    by intros e' [= <-].
  - rewrite (CreateDb_reads_back d meta db w stmt name s1) by done.
    destruct (ReadDb env (SetId d name) meta
                (after_call env w (CallExec db stmt) None s1)) as [out w'] eqn:Hread.
    destruct (ReadDb_effects env _ _ _ _ _ Hread)
      as ((new & Htrace & Hquery & Hlen & _) & _).
    exists {| at_time := clock w; what := CallExec db stmt; failed := None |}, new.
    cbn [fst snd]. split; [done|]. split; [done|]. split.
    { rewrite Htrace. cbn [trace after_call]. by rewrite <- List.app_assoc. }
    do 2 (split; [reflexivity|]). split; [exact Hquery|]. split; [exact Hlen|].
    intros e [=].
Qed.

(** X14.  The statement went through and the read after it fails.  With
    MySQL error 1049 [CreateDb] returns nil although the resource is left
    with the empty ID; with any other error it returns an error although
    the resource is left with its name as the ID. *)
Theorem CreateDb_read_back_error (d : ResourceData) (meta : MySQLConfiguration)
    (db : DB) (w : World env) (stmt name : string) (e : error) (s1 s2 : Srv env) :
  Db meta = Some db ->
  databaseSQLCMD "CREATE" d = Val stmt ->
  Get d "name" = VString name ->
  db_Exec env db stmt (srv w) = (None, s1) ->
  db_QueryRow env db (showCreateDatabase name) [] s1 = (inl e, s2) ->
  (forall msg, e = MySQLError 1049 msg ->
     fst (CreateDb env d meta w) = Val (None, SetId d "")) /\
  ((forall msg, e <> MySQLError 1049 msg) ->
     fst (CreateDb env d meta w) =
       Val (Some (ErrorString ("Error during show create database: " +:+ Error e)),
            SetId d name)).
Proof.
  intros Hdb Hstmt Hname Hexec Hq.
  rewrite (CreateDb_reads_back d meta db w stmt name s1) by done.
  split.
  - intros msg ->.
    by rewrite (ReadDb_query_1049 env (SetId d name) meta db _ msg s2).
  - intros Hother.
    by rewrite (ReadDb_query_error env (SetId d name) meta db _ e s2).
Qed.

End CreatePaths.

Section CreateRuns.

(** A resource with nothing but its name, as the plugin host builds it *)
Lemma CreateDb_panics_on_declared_schema_witness :
  let d := NewResourceData ResourceDB_Schema [("name", VString "app")] in
  let w := start_world (answering (inr None)) tt in
  CreateDb (answering (inr None)) d sample_meta w = (Panic NilInterfaceConversion, w).
Proof.
  intros d w.
  apply (proj2 (CreateDb_panics_on_declared_schema (answering (inr None)) d sample_meta w
                  eq_refl) "app").
  reflexivity.
Defined.

(** The database is dropped by someone else right after it was created *)
Lemma CreateDb_read_back_error_witness :
  let env := answering (inl (MySQLError 1049 "Unknown database 'app'")) in
  let d := database_data "default_character_set" "app" "utf8mb4" "utf8mb4_unicode_ci" in
  fst (CreateDb env d sample_meta (start_world env tt)) = Val (None, SetId d "").
Proof.
  intros env d.
  apply (proj1 (CreateDb_read_back_error env d sample_meta sample_db (start_world env tt)
                  "CREATE DATABASE `app` CHARACTER SET `utf8mb4` COLLATE `utf8mb4_unicode_ci`"
                  "app" (MySQLError 1049 "Unknown database 'app'") tt tt
                  eq_refl eq_refl eq_refl eq_refl eq_refl) "Unknown database 'app'").
  reflexivity.
Defined.

End CreateRuns.

(** ** The connector: how long and how often it tries *)

Section ConnectorRuns.

Variable env : Env.

Lemma attempts_app l1 l2 : attempts (l1 ++ l2) = (attempts l1 + attempts l2)%nat.
Proof. unfold attempts. by rewrite List.filter_app, List.length_app. Qed.

Lemma forallb_is_connect_app l1 l2 :
  forallb is_connect l1 = true -> forallb is_connect l2 = true ->
  forallb is_connect (l1 ++ l2) = true.
Proof. intros H1 H2. by rewrite forallb_app, H1, H2. Qed.

(** What one run of the function literal adds to the log *)
Lemma connect_once_run dsn c (w : World env) :
  exists rerr c' w' new,
    connect_once env dsn c w = (Val (rerr, c'), w') /\
    trace w' = trace w ++ new /\
    attempts new = 1%nat /\
    forallb is_connect new = true /\
    dialContext w' = dialContext w /\
    clock w <= clock w' /\
    (forall r, rerr = Some r -> Retryable r = true) /\
    (rerr = None ->
       c' = Some (fresh_handle dsn) /\ exists t1 t2, new = connected dsn t1 t2).
Proof.
  destruct (connect_once_cases env dsn c w)
    as [(e & s' & Ho & E)|[(e & s' & s'' & Ho & Hp & E)|(s' & s'' & Ho & Hp & E)]];
    rewrite E; do 3 eexists; eexists.
  all: split; [reflexivity|].
  all: split; [cbn [trace after_call]; rewrite <- ?List.app_assoc; reflexivity|].
  all: split; [reflexivity|]; split; [reflexivity|]; split; [reflexivity|].
  all: split; [cbn [clock after_call]; lia|].
  all: split; [by intros r [= <-]|].
  1,2: discriminate.
  intros _. split; [reflexivity|]. by eexists _, _.
Qed.

(** The loop of [resource.Retry] around the function literal, started
    with fuel for the time that is left *)
Lemma Retry_loop_run dsn fuel deadline wait c (w : World env) :
  deadline - clock w <= Z.of_nat fuel * MinTimeout ->
  exists oe c' w' new,
    Retry_loop env fuel deadline wait (connect_once env dsn) c w = (Val (oe, c'), w') /\
    trace w' = trace w ++ new /\
    forallb is_connect new = true /\
    Z.of_nat (attempts new) <= 1 + Z.max 0 ((deadline - clock w) / MinTimeout) /\
    dialContext w' = dialContext w /\
    (oe <> None -> deadline <= clock w') /\
    (oe = None ->
       c' = Some (fresh_handle dsn) /\
       exists pre t1 t2, new = pre ++ connected dsn t1 t2).
Proof.
  assert (0 < MinTimeout) as Hpos by (unfold MinTimeout, Millisecond; lia).
  revert wait c w. induction fuel as [|fuel IH]; intros wait c w Hfuel.
  all: rewrite (Retry_loop_eq env _ deadline wait).
  all: destruct (connect_once_run dsn c w)
         as (rerr & c1 & w1 & new & E & Htrace & Hone & Hconn & Hdial & Hclock & Hretry & Hok).
  all: rewrite E.
  all: pose proof (next_wait_min wait) as Hmin.
  all: destruct rerr as [r|].
  2,4: (exists None, c1, w1, new; split; [reflexivity|]; split; [done|]; split; [done|];
        split; [rewrite Hone; lia|]; split; [done|]; split; [done|];
        intros _; destruct (Hok eq_refl) as (-> & t1 & t2 & ->);
        split; [reflexivity|]; by exists [], t1, t2).
  all: rewrite (Hretry r eq_refl); cbn [negb].
  all: destruct (clock w1 + next_wait wait <? deadline) eqn:Hlt.
  all: try (apply Z.ltb_lt in Hlt).
  all: try (apply Z.ltb_ge in Hlt).
  - lia.
  - exists (Some (Err r)), c1, (after_sleep env w1 (deadline - clock w1)), (new ++
      [{| at_time := clock w1; what := CallSleep (deadline - clock w1); failed := None |}]).
    split; [reflexivity|]. split.
    { cbn [trace after_sleep]. by rewrite Htrace, <- List.app_assoc. }
    split; [by apply forallb_is_connect_app|].
    split; [rewrite attempts_app, Hone; cbn; lia|].
    split; [done|]. split; [intros _; cbn [clock after_sleep]; lia|done].
  - destruct (IH (next_wait wait) c1 (after_sleep env w1 (next_wait wait)))
      as (oe & c' & w' & new2 & E2 & Htrace2 & Hconn2 & Hcount2 & Hdial2 & Hlate2 & Hok2).
    { cbn [clock after_sleep]. lia. }
    rewrite E2.
    exists oe, c', w', ((new ++
      [{| at_time := clock w1; what := CallSleep (next_wait wait); failed := None |}]) ++ new2).
    split; [reflexivity|]. split.
    { rewrite Htrace2. cbn [trace after_sleep]. by rewrite Htrace, <- !List.app_assoc. }
    split; [by repeat apply forallb_is_connect_app|].
    split.
    { rewrite !attempts_app, Hone. cbn [attempts List.filter is_open what length].
      cbn [clock after_sleep] in Hcount2.
      assert (0 < deadline - (clock w1 + Z.max 0 (next_wait wait))) as Hleft by lia.
      assert ((deadline - (clock w1 + Z.max 0 (next_wait wait))) / MinTimeout + 1
              <= (deadline - clock w) / MinTimeout) as Hdiv.
      { rewrite <- Z.div_add by lia. apply Z.div_le_mono; lia. }
      pose proof (Z.div_pos (deadline - (clock w1 + Z.max 0 (next_wait wait))) MinTimeout
                    ltac:(lia) Hpos).
      lia. }
    split; [by rewrite Hdial2|]. split; [done|].
    intros Hnone. destruct (Hok2 Hnone) as (-> & pre & t1 & t2 & ->).
    split; [reflexivity|]. eexists _, t1, t2. by rewrite List.app_assoc.
  - exists (Some (Err r)), c1, (after_sleep env w1 (deadline - clock w1)), (new ++
      [{| at_time := clock w1; what := CallSleep (deadline - clock w1); failed := None |}]).
    split; [reflexivity|]. split.
    { cbn [trace after_sleep]. by rewrite Htrace, <- List.app_assoc. }
    split; [by apply forallb_is_connect_app|].
    split; [rewrite attempts_app, Hone; cbn; lia|].
    split; [done|]. split; [intros _; cbn [clock after_sleep]; lia|done].
Qed.

(** Every run of [mySQLConnect] *)
Lemma mySQLConnect_run conf (w : World env) :
  exists db err w' new,
    mySQLConnect env conf w = (Val (db, err), w') /\
    trace w' = trace w ++ new /\
    forallb is_connect new = true /\
    Z.of_nat (attempts new) <= 1 + Z.max 0 (ConnectRetryTimeoutSec conf / MinTimeout) /\
    dialContext w' = dialContext w /\
    (forall e, err = Some e ->
       db = None /\ clock w + ConnectRetryTimeoutSec conf <= clock w') /\
    (err = None ->
       db = Some {| dsn := FormatDSN env (Config_ conf);
                    connMaxLifetime := Z.max 0 (MaxConnLifetime conf);
                    maxOpenConns := Z.max 0 (MaxOpenConns conf) |} /\
       exists pre t1 t2, new = pre ++ connected (FormatDSN env (Config_ conf)) t1 t2).
Proof.
  assert (0 < MinTimeout) as Hpos by (unfold MinTimeout, Millisecond; lia).
  destruct (Retry_loop_run (FormatDSN env (Config_ conf))
              (Z.to_nat (ConnectRetryTimeoutSec conf / MinTimeout + 1))
              (clock w + ConnectRetryTimeoutSec conf) 0 None w)
    as (oe & c' & w' & new & E & Htrace & Hconn & Hcount & Hdial & Hlate & Hok).
  { pose proof (Z.mod_pos_bound (ConnectRetryTimeoutSec conf) MinTimeout Hpos) as Hmod.
    pose proof (Z.div_mod (ConnectRetryTimeoutSec conf) MinTimeout ltac:(lia)) as Hdiv.
    destruct (Z_lt_le_dec (ConnectRetryTimeoutSec conf / MinTimeout + 1) 0) as [Hneg|Hnn].
    - assert (ConnectRetryTimeoutSec conf <= 0) by nia. nia.
    - rewrite Z2Nat.id by lia. nia. }
  replace (clock w + ConnectRetryTimeoutSec conf - clock w)
    with (ConnectRetryTimeoutSec conf) in Hcount by lia.
  unfold mySQLConnect, Retry, mbind, M_bind, bind at 1.
  unfold now, bind at 1. rewrite E.
  destruct oe as [cause|].
  - eexists None, (Some _), w', new. split; [reflexivity|].
    do 4 (split; [done|]). split; [|done].
    intros e _. split; [reflexivity|]. apply Hlate. discriminate.
  - destruct (Hok eq_refl) as (-> & pre & t1 & t2 & ->).
    eexists (Some _), None, w', _. split; [reflexivity|].
    do 4 (split; [done|]). split; [done|].
    intros _. split; [reflexivity|]. by exists pre, t1, t2.
Qed.

(** X15.  When the first open and the first ping succeed, [mySQLConnect]
    makes exactly these two calls, without waiting, and returns the handle
    with the two limits of the configuration applied, a negative limit
    counting as none. *)
Theorem mySQLConnect_first_try (conf : MySQLConfiguration) (w : World env)
    (s1 s2 : Srv env) :
  let dsn := FormatDSN env (Config_ conf) in
  sql_Open env dsn (srv w) = (None, s1) ->
  db_Ping env (fresh_handle dsn) s1 = (None, s2) ->
  mySQLConnect env conf w =
    (Val (Some {| dsn := dsn;
                  connMaxLifetime := Z.max 0 (MaxConnLifetime conf);
                  maxOpenConns := Z.max 0 (MaxOpenConns conf) |}, None),
     after_call env (after_call env w (CallOpen dsn) None s1)
       (CallPing (fresh_handle dsn)) None s2).
Proof.
  intros dsn Hopen Hping.
  unfold mySQLConnect, Retry, mbind, M_bind, bind at 1.
  unfold now, bind at 1.
  rewrite (Retry_loop_eq env _ _ 0). fold dsn.
  destruct (connect_once_cases env dsn None w)
    as [(e & s' & Ho & E)|[(e & s' & s'' & Ho & Hp & E)|(s' & s'' & Ho & Hp & E)]];
    rewrite Hopen in Ho; simplify_eq; rewrite Hping in Hp; simplify_eq.
  rewrite E. reflexivity.
Qed.

(** X16.  Whatever the server does, [mySQLConnect] only opens, pings and
    waits; it leaves the registered dialer alone; and it opens the data
    source at most once more than there are 500ms in the configured
    timeout, once when the timeout is not positive. *)
Theorem mySQLConnect_attempts_bounded (conf : MySQLConfiguration) (w : World env) :
  let w' := snd (mySQLConnect env conf w) in
  exists new,
    trace w' = trace w ++ new /\
    forallb is_connect new = true /\
    Z.of_nat (attempts new) <= 1 + Z.max 0 (ConnectRetryTimeoutSec conf / MinTimeout) /\
    dialContext w' = dialContext w.
Proof.
  intros w'. subst w'.
  destruct (mySQLConnect_run conf w)
    as (db & err & w' & new & -> & Htrace & Hconn & Hcount & Hdial & _).
  by exists new.
Qed.

(** X17.  [mySQLConnect] gives up no earlier than the configured timeout:
    when it returns an error, at least that much time has passed since it
    was called. *)
Theorem mySQLConnect_fails_at_deadline (conf : MySQLConfiguration) (w : World env)
    (db : option DB) (e : error) :
  fst (mySQLConnect env conf w) = Val (db, Some e) ->
  clock w + ConnectRetryTimeoutSec conf <= clock (snd (mySQLConnect env conf w)).
Proof.
  destruct (mySQLConnect_run conf w)
    as (db' & err & w' & new & -> & _ & _ & _ & _ & Hfail & _).
  cbn [fst snd]. intros [= -> ->]. by destruct (Hfail e eq_refl).
Qed.

(** X18.  When [mySQLConnect] returns without an error, the last two
    calls it made are an open and a ping of the data source that both
    succeeded, and the handle it returns is on that data source with the
    two limits of the configuration applied. *)
Theorem mySQLConnect_success_after_ping (conf : MySQLConfiguration) (w : World env)
    (db : option DB) :
  fst (mySQLConnect env conf w) = Val (db, None) ->
  db = Some {| dsn := FormatDSN env (Config_ conf);
               connMaxLifetime := Z.max 0 (MaxConnLifetime conf);
               maxOpenConns := Z.max 0 (MaxOpenConns conf) |} /\
  exists pre t1 t2,
    trace (snd (mySQLConnect env conf w))
    = trace w ++ pre ++ connected (FormatDSN env (Config_ conf)) t1 t2.
Proof.
  destruct (mySQLConnect_run conf w)
    as (db' & err & w' & new & -> & Htrace & _ & _ & _ & _ & Hok).
  cbn [fst snd]. intros [= -> ->].
  destruct (Hok eq_refl) as (-> & pre & t1 & t2 & ->).
  split; [reflexivity|]. by exists pre, t1, t2.
Qed.

End ConnectorRuns.

Section ConnectorSamples.

(** A server that is up: one open, one ping, two milliseconds *)
Lemma mySQLConnect_first_try_witness :
  let env := answering (inr None) in
  fst (mySQLConnect env three_seconds (start_world env tt))
    = Val (Some {| dsn := "root:secret@tcp(db:3306)/";
                   connMaxLifetime := 0; maxOpenConns := 0 |}, None) /\
  clock (snd (mySQLConnect env three_seconds (start_world env tt))) = 2 * Millisecond.
Proof.
  intros env.
  rewrite (mySQLConnect_first_try env three_seconds (start_world env tt) tt tt
             eq_refl eq_refl).
  split; reflexivity.
Defined.

(** Three seconds against a server that is down *)
Lemma mySQLConnect_fails_at_deadline_witness :
  clock (start_world unreachable tt) + ConnectRetryTimeoutSec three_seconds
  <= clock (snd (mySQLConnect unreachable three_seconds (start_world unreachable tt))).
Proof.
  apply (mySQLConnect_fails_at_deadline unreachable three_seconds
           (start_world unreachable tt) None
           (ErrorString "Could not connect to server: dial tcp: connection refused")).
  vm_compute. reflexivity.
Defined.

Lemma mySQLConnect_success_after_ping_witness :
  let env := answering (inr None) in
  exists pre t1 t2,
    trace (snd (mySQLConnect env three_seconds (start_world env tt)))
    = trace (start_world env tt) ++ pre
        ++ connected (FormatDSN env (Config_ three_seconds)) t1 t2.
Proof.
  intros env.
  apply (mySQLConnect_success_after_ping env three_seconds (start_world env tt)
           (Some {| dsn := "root:secret@tcp(db:3306)/";
                    connMaxLifetime := 0; maxOpenConns := 0 |})).
  vm_compute. reflexivity.
Defined.

End ConnectorSamples.

(** ** providerConfigure on data of the provider schema *)

Section Configure.

Variable env : Env.

Lemma has_type_Zero t : has_type (Zero t) t = true.
Proof. by destruct t. Qed.

(** [Get] of a declared key is a value of the declared type. *)
Lemma Get_well_typed d key s :
  well_typed d -> schema d !! key = Some s -> has_type (Get d key) (Type_ s) = true.
Proof.
  intros Hwt Hs. unfold Get. rewrite Hs.
  destruct (attrs d !! key) as [v|] eqn:Hv; cbn [default].
  - pose proof (map_Forall_lookup_1 _ _ _ _ Hwt Hv) as Ht.
    unfold typed_attr in Ht. by rewrite Hs in Ht.
  - apply has_type_Zero.
Qed.

Lemma Get_string d key :
  well_typed d -> Type_ <$> schema d !! key = Some TypeString ->
  exists v, Get d key = VString v.
Proof.
  intros Hwt Hs. destruct (schema d !! key) as [s|] eqn:E; [|done].
  injection Hs as Ht. pose proof (Get_well_typed d key s Hwt E) as H.
  rewrite Ht in H. destruct (Get d key) as [|v| |]; try discriminate H. by exists v.
Qed.

Lemma Get_int d key :
  well_typed d -> Type_ <$> schema d !! key = Some TypeInt ->
  exists n, Get d key = VInt n.
Proof.
  intros Hwt Hs. destruct (schema d !! key) as [s|] eqn:E; [|done].
  injection Hs as Ht. pose proof (Get_well_typed d key s Hwt E) as H.
  rewrite Ht in H. destruct (Get d key) as [| |n|]; try discriminate H. by exists n.
Qed.

(** The attributes [providerConfigure] reads, on data of the provider
    schema *)
Lemma provider_data d :
  schema d = Provider_Schema -> well_typed d ->
  exists endpoint username password tls plugin proxyArg lifetime conns timeout,
    Get d "endpoint" = VString endpoint /\
    Get d "username" = VString username /\
    Get d "password" = VString password /\
    Get d "tls" = VString tls /\
    Get d "authentication_plugin" = VString plugin /\
    Get d "proxy" = VString proxyArg /\
    Get d "max_conn_lifetime_sec" = VInt lifetime /\
    Get d "max_open_conns" = VInt conns /\
    Get d "connect_retry_timeout_sec" = VInt timeout.
Proof.
  intros Hsch Hwt.
  destruct (Get_string d "endpoint" Hwt ltac:(rewrite Hsch; reflexivity)) as [endpoint ?].
  destruct (Get_string d "username" Hwt ltac:(rewrite Hsch; reflexivity)) as [username ?].
  destruct (Get_string d "password" Hwt ltac:(rewrite Hsch; reflexivity)) as [password ?].
  destruct (Get_string d "tls" Hwt ltac:(rewrite Hsch; reflexivity)) as [tls ?].
  destruct (Get_string d "authentication_plugin" Hwt ltac:(rewrite Hsch; reflexivity))
    as [plugin ?].
  destruct (Get_string d "proxy" Hwt ltac:(rewrite Hsch; reflexivity)) as [proxyArg ?].
  destruct (Get_int d "max_conn_lifetime_sec" Hwt ltac:(rewrite Hsch; reflexivity))
    as [lifetime ?].
  destruct (Get_int d "max_open_conns" Hwt ltac:(rewrite Hsch; reflexivity)) as [conns ?].
  destruct (Get_int d "connect_retry_timeout_sec" Hwt ltac:(rewrite Hsch; reflexivity))
    as [timeout ?].
  by exists endpoint, username, password, tls, plugin, proxyArg, lifetime, conns, timeout.
Qed.

(** [proxyDialer] leaves the world alone, and does not panic when
    [proxy] is a string. *)
Lemma proxyDialer_pure d proxyArg (w : World env) :
  Get d "proxy" = VString proxyArg ->
  exists r,
    proxyDialer env d w = (Val r, w) /\
    r = (if 0 <? GoString.len proxyArg
         then match url_Parse env proxyArg with
              | inl err => inl err
              | inr proxyurl => proxy_FromURL env proxyurl
              end
         else inr (proxy_FromEnvironment env)).
Proof.
  intros Hproxy. unfold proxyDialer, mbind, M_bind, bind, lift, mret, M_ret, ret.
  rewrite Hproxy. cbn [assert_string].
  destruct (0 <? GoString.len proxyArg); [|by eexists].
  destruct (url_Parse env proxyArg) as [err|u]; [by eexists|].
  destruct (proxy_FromURL env u) as [err|dl]; by eexists.
Qed.

Lemma len_pos s : s <> "" -> (0 <? GoString.len s) = true.
Proof. destruct s; [done|]. intros _. apply Z.ltb_lt. unfold GoString.len. cbn. lia. Qed.

(** The run of [providerConfigure] once its attributes are known *)
Lemma providerConfigure_eq d (w : World env) c0 rest username password tls plugin
    proxyArg lifetime conns timeout :
  Get d "endpoint" = VString (String c0 rest) ->
  Get d "username" = VString username ->
  Get d "password" = VString password ->
  Get d "tls" = VString tls ->
  Get d "authentication_plugin" = VString plugin ->
  Get d "proxy" = VString proxyArg ->
  Get d "max_conn_lifetime_sec" = VInt lifetime ->
  Get d "max_open_conns" = VInt conns ->
  Get d "connect_retry_timeout_sec" = VInt timeout ->
  providerConfigure env d w =
    let sqlconf :=
      {| User := username; Passwd := password;
         Net := if Ascii.eqb c0 "/" then "unix" else "tcp";
         Addr := String c0 rest; TLSConfig := tls;
         AllowNativePasswords := String.eqb plugin nativePasswords;
         AllowCleartextPasswords := String.eqb plugin cleartextPasswords |} in
    match fst (proxyDialer env d w) with
    | Panic p => (Panic p, w)
    | Val (inl err) => (Val (None, Some err), w)
    | Val (inr dialer) =>
        let mysqlConf :=
          {| Config_ := sqlconf; Db := None;
             MaxConnLifetime := wrap64 (lifetime * Second);
             MaxOpenConns := conns;
             ConnectRetryTimeoutSec := wrap64 (timeout * Second) |} in
        match mySQLConnect env mysqlConf (registered env w dialer) with
        | (Val (db, Some err), w') => (Val (None, Some err), w')
        | (Val (db, None), w') =>
            (Val (Some {| Config_ := sqlconf; Db := db;
                          MaxConnLifetime := wrap64 (lifetime * Second);
                          MaxOpenConns := conns;
                          ConnectRetryTimeoutSec := wrap64 (timeout * Second) |}, None), w')
        | (Panic p, w') => (Panic p, w')
        end
    end.
Proof.
  intros Hendpoint Huser Hpass Htls Hplugin Hproxy Hlife Hconns Htimeout.
  destruct (proxyDialer_pure d proxyArg w Hproxy) as (r & Hdial & _).
  unfold providerConfigure.
  unfold mbind, M_bind, bind, lift, mret, M_ret, ret.
  rewrite Hendpoint, Huser, Hpass, Htls, Hplugin. cbn [assert_string].
  change (GoString.index (String c0 rest) 0) with (@Val ascii c0).
  cbv beta iota zeta.
  rewrite Hdial. cbn [fst].
  destruct r as [err|dialer]; [reflexivity|].
  unfold RegisterDialContext. rewrite Hlife, Hconns, Htimeout. cbn [assert_int].
  cbv beta iota zeta. fold (registered env w dialer).
  destruct (mySQLConnect env _ (registered env w dialer)) as [[[db [err|]]|p] w'];
    reflexivity.
Qed.

Lemma wrap64_small z : - 2 ^ 63 <= z < 2 ^ 63 -> wrap64 z = z.
Proof. intros H. unfold wrap64. rewrite Z.mod_small; lia. Qed.

(** X19.  On well-typed data of the provider schema, an endpoint that
    is not the empty string is all [providerConfigure] needs to return:
    it does not panic, and it returns either a configuration and no
    error or an error and no configuration. *)
Theorem providerConfigure_returns (d : ResourceData) (w : World env) :
  schema d = Provider_Schema ->
  well_typed d ->
  Get d "endpoint" <> VString "" ->
  exists conf err w',
    providerConfigure env d w = (Val (conf, err), w') /\
    (is_Some conf <-> err = None).
Proof.
  intros Hsch Hwt Hnonempty.
  destruct (provider_data d Hsch Hwt)
    as (endpoint & username & password & tls & plugin & proxyArg & lifetime & conns
        & timeout & He & Hu & Hp & Ht & Hpl & Hpr & Hl & Hc & Hto).
  destruct endpoint as [|c0 rest]; [done|].
  rewrite (providerConfigure_eq d w c0 rest username password tls plugin proxyArg
             lifetime conns timeout) by done.
  cbv zeta.
  destruct (proxyDialer_pure d proxyArg w Hpr) as (r & -> & _). cbn [fst].
  destruct r as [err|dialer].
  - eexists None, (Some err), w. split; [reflexivity|].
    split; [by intros [? ?]|done].
  - match goal with |- context [mySQLConnect env ?c ?w0] =>
      destruct (mySQLConnect_run env c w0) as (db & err & w' & new & -> & _)
    end.
    destruct err as [err|].
    + eexists None, (Some err), w'. split; [reflexivity|].
      split; [by intros [? ?]|done].
    + eexists (Some _), None, w'. split; [reflexivity|]. split; eauto.
Qed.

(** X20.  The configuration [providerConfigure] returns.  The address is
    the endpoint, the network is [unix] when the endpoint starts with a
    slash and [tcp] otherwise; native and cleartext passwords are allowed
    exactly when [authentication_plugin] is [native] and [cleartext],
    compared as written; the handle is open on the data source of this
    configuration, with the two limits applied; a retry timeout of up to
    9223372036 seconds is that many seconds; and a dialer is registered. *)
Theorem providerConfigure_success (d : ResourceData) (w w' : World env)
    (conf : MySQLConfiguration) (err : option error) :
  schema d = Provider_Schema ->
  well_typed d ->
  providerConfigure env d w = (Val (Some conf, err), w') ->
  err = None /\
  (exists endpoint plugin,
     Get d "endpoint" = VString endpoint /\
     Get d "authentication_plugin" = VString plugin /\
     Addr (Config_ conf) = endpoint /\
     Net (Config_ conf) = (if GoString.HasPrefix endpoint "/" then "unix" else "tcp") /\
     AllowNativePasswords (Config_ conf) = String.eqb plugin "native" /\
     AllowCleartextPasswords (Config_ conf) = String.eqb plugin "cleartext") /\
  (exists h,
     Db conf = Some h /\
     dsn h = FormatDSN env (Config_ conf) /\
     connMaxLifetime h = Z.max 0 (MaxConnLifetime conf) /\
     maxOpenConns h = Z.max 0 (MaxOpenConns conf)) /\
  (forall sec,
     Get d "connect_retry_timeout_sec" = VInt sec ->
     0 <= sec <= 9223372036 ->
     ConnectRetryTimeoutSec conf = sec * Second) /\
  is_Some (dialContext w').
Proof.
  intros Hsch Hwt Hrun.
  destruct (provider_data d Hsch Hwt)
    as (endpoint & username & password & tls & plugin & proxyArg & lifetime & conns
        & timeout & He & Hu & Hp & Ht & Hpl & Hpr & Hl & Hc & Hto).
  destruct endpoint as [|c0 rest].
  { unfold providerConfigure, mbind, M_bind, bind, lift in Hrun.
    rewrite He in Hrun. discriminate Hrun. }
  rewrite (providerConfigure_eq d w c0 rest username password tls plugin proxyArg
             lifetime conns timeout) in Hrun by done.
  cbv zeta in Hrun.
  destruct (proxyDialer_pure d proxyArg w Hpr) as (r & Hdial & _).
  rewrite Hdial in Hrun. cbn [fst] in Hrun.
  destruct r as [e|dialer]; [discriminate Hrun|].
  match type of Hrun with context [mySQLConnect env ?c ?w0] =>
    destruct (mySQLConnect_run env c w0)
      as (db & e & w1 & new & E & _ & _ & _ & Hdialer & _ & Hok)
  end.
  rewrite E in Hrun. destruct e as [e|]; [discriminate Hrun|].
  injection Hrun as <- <- <-.
  destruct (Hok eq_refl) as (-> & _).
  split; [reflexivity|]. split; [|split; [|split]].
  - exists (String c0 rest), plugin.
    split; [exact He|]. split; [exact Hpl|]. split; [reflexivity|].
    split; [|split; reflexivity].
    cbn [Net Config_ GoString.HasPrefix]. by rewrite andb_true_r.
  - eexists. by repeat split.
  - intros sec Hsec Hrange. cbn [ConnectRetryTimeoutSec].
    rewrite Hto in Hsec. injection Hsec as ->.
    apply wrap64_small. unfold Second. lia.
  - rewrite Hdialer. cbn. eauto.
Qed.

(** X21.  When [proxy] is a URL that does not parse, or one for which
    no dialer can be built, [providerConfigure] returns that error
    itself and nothing has happened: no dialer is registered and no
    connection is tried. *)
Theorem providerConfigure_proxy_error (d : ResourceData) (w : World env)
    (proxyArg : string) (err : error) :
  schema d = Provider_Schema ->
  well_typed d ->
  Get d "endpoint" <> VString "" ->
  Get d "proxy" = VString proxyArg ->
  proxyArg <> "" ->
  url_Parse env proxyArg = inl err \/
    (exists proxyurl,
       url_Parse env proxyArg = inr proxyurl /\ proxy_FromURL env proxyurl = inl err) ->
  providerConfigure env d w = (Val (None, Some err), w).
Proof.
  intros Hsch Hwt Hnonempty Hproxy Hset Hfails.
  destruct (provider_data d Hsch Hwt)
    as (endpoint & username & password & tls & plugin & proxyArg' & lifetime & conns
        & timeout & He & Hu & Hp & Ht & Hpl & Hpr & Hl & Hc & Hto).
  destruct endpoint as [|c0 rest]; [done|].
  rewrite (providerConfigure_eq d w c0 rest username password tls plugin proxyArg
             lifetime conns timeout) by done.
  cbv zeta.
  destruct (proxyDialer_pure d proxyArg w Hproxy) as (r & -> & ->). cbn [fst].
  rewrite (len_pos _ Hset).
  destruct Hfails as [-> |(u & -> & ->)]; reflexivity.
Qed.

(** X22.  Which dialer is registered: the one of the environment when
    [proxy] is the empty string, the one built from the URL otherwise;
    and it is registered whether or not the connection then succeeds. *)
Theorem providerConfigure_registers_dialer (d : ResourceData) (w : World env)
    (proxyArg : string) :
  schema d = Provider_Schema ->
  well_typed d ->
  Get d "endpoint" <> VString "" ->
  Get d "proxy" = VString proxyArg ->
  let w' := snd (providerConfigure env d w) in
  (proxyArg = "" -> dialContext w' = Some (proxy_FromEnvironment env)) /\
  (forall proxyurl dialer,
     proxyArg <> "" ->
     url_Parse env proxyArg = inr proxyurl ->
     proxy_FromURL env proxyurl = inr dialer ->
     dialContext w' = Some dialer).
Proof.
  intros Hsch Hwt Hnonempty Hproxy w'. subst w'.
  destruct (provider_data d Hsch Hwt)
    as (endpoint & username & password & tls & plugin & proxyArg' & lifetime & conns
        & timeout & He & Hu & Hp & Ht & Hpl & Hpr & Hl & Hc & Hto).
  destruct endpoint as [|c0 rest]; [done|].
  rewrite (providerConfigure_eq d w c0 rest username password tls plugin proxyArg
             lifetime conns timeout) by done.
  cbv zeta.
  destruct (proxyDialer_pure d proxyArg w Hproxy) as (r & -> & Hr). cbn [fst].
  assert (forall dialer, r = inr dialer ->
            dialContext (snd
              match r with
              | inl err => (Val (None, Some err), w)
              | inr dialer =>
                  match mySQLConnect env
                          {| Config_ :=
                               {| User := username; Passwd := password;
                                  Net := if Ascii.eqb c0 "/" then "unix" else "tcp";
                                  Addr := String c0 rest; TLSConfig := tls;
                                  AllowNativePasswords := String.eqb plugin nativePasswords;
                                  AllowCleartextPasswords :=
                                    String.eqb plugin cleartextPasswords |};
                             Db := None;
                             MaxConnLifetime := wrap64 (lifetime * Second);
                             MaxOpenConns := conns;
                             ConnectRetryTimeoutSec := wrap64 (timeout * Second) |}
                          (registered env w dialer) with
                  | (Val (db, Some err), w') => (Val (None, Some err), w')
                  | (Val (db, None), w') =>
                      (Val (Some {| Config_ :=
                                      {| User := username; Passwd := password;
                                         Net := if Ascii.eqb c0 "/" then "unix" else "tcp";
                                         Addr := String c0 rest; TLSConfig := tls;
                                         AllowNativePasswords :=
                                           String.eqb plugin nativePasswords;
                                         AllowCleartextPasswords :=
                                           String.eqb plugin cleartextPasswords |};
                                    Db := db;
                                    MaxConnLifetime := wrap64 (lifetime * Second);
                                    MaxOpenConns := conns;
                                    ConnectRetryTimeoutSec := wrap64 (timeout * Second) |},
                            None), w')
                  | (Panic p, w') => (Panic p, w')
                  end
              end) = Some dialer) as Hreg.
  { intros dialer ->.
    match goal with |- context [mySQLConnect env ?c ?w0] =>
      destruct (mySQLConnect_run env c w0)
        as (db & e & w1 & new & -> & _ & _ & _ & Hdialer & _)
    end.
    destruct e; cbn [snd]; by rewrite Hdialer. }
  split.
  - intros ->. apply Hreg. by rewrite Hr.
  - intros u dialer Hset Hparse Hfrom. apply Hreg.
    by rewrite Hr, (len_pos _ Hset), Hparse, Hfrom.
Qed.

End Configure.

Section ConfigureRuns.

Lemma behind_proxy_well_typed : well_typed behind_proxy.
Proof. apply (bool_decide_unpack _). vm_compute. reflexivity. Qed.

Lemma providerConfigure_returns_witness :
  exists conf err w',
    providerConfigure unreachable behind_proxy (start_world unreachable tt)
      = (Val (conf, err), w') /\
    (is_Some conf <-> err = None).
Proof.
  apply (providerConfigure_returns unreachable behind_proxy (start_world unreachable tt)
           eq_refl behind_proxy_well_typed).
  discriminate.
Defined.

Lemma providerConfigure_proxy_error_witness :
  providerConfigure no_proxy_parses behind_proxy (start_world no_proxy_parses tt)
  = (Val (None, Some (OtherError "*url.Error"
                        "parse socks5://bastion:1080: invalid port")),
     start_world no_proxy_parses tt).
Proof.
  apply (providerConfigure_proxy_error no_proxy_parses behind_proxy
           (start_world no_proxy_parses tt) "socks5://bastion:1080"
           (OtherError "*url.Error" "parse socks5://bastion:1080: invalid port")
           eq_refl behind_proxy_well_typed).
  - discriminate.
  - reflexivity.
  - discriminate.
  - left. reflexivity.
Defined.

(** A server that is up, reached through the proxy *)
Lemma providerConfigure_success_witness :
  let env := answering (inr None) in
  exists conf w',
    providerConfigure env behind_proxy (start_world env tt) = (Val (Some conf, None), w') /\
    Addr (Config_ conf) = "db:3306" /\
    Net (Config_ conf) = "tcp" /\
    ConnectRetryTimeoutSec conf = 300 * Second /\
    is_Some (dialContext w').
Proof.
  intros env.
  assert (exists conf w',
            providerConfigure env behind_proxy (start_world env tt)
            = (Val (Some conf, None), w')) as (conf & w' & Hrun)
    by (vm_compute; eauto).
  destruct (providerConfigure_success env behind_proxy (start_world env tt) w' conf None
              eq_refl behind_proxy_well_typed Hrun)
    as (_ & (endpoint & plugin & Hendpoint & _ & Haddr & Hnet & _) & _ & Htimeout & Hdialer).
  injection Hendpoint as <-.
  exists conf, w'. split; [exact Hrun|]. split; [exact Haddr|]. split; [exact Hnet|].
  split; [|exact Hdialer]. apply Htimeout; [reflexivity|lia].
Defined.

(** The server is down, and the dialer of the proxy is registered all
    the same *)
Lemma providerConfigure_registers_dialer_witness :
  dialContext (snd (providerConfigure unreachable behind_proxy
                      (start_world unreachable tt)))
  = Some "socks5://bastion:1080".
Proof.
  apply (proj2 (providerConfigure_registers_dialer unreachable behind_proxy
                  (start_world unreachable tt) "socks5://bastion:1080"
                  eq_refl behind_proxy_well_typed ltac:(discriminate) eq_refl)
           "socks5://bastion:1080" "socks5://bastion:1080").
  - discriminate.
  - reflexivity.
  - reflexivity.
Defined.

End ConfigureRuns.
